(** * rod: the Browser handle (browser.go)

    A shallow embedding of [src/browser.go].  Go pointers to [Browser] are
    addresses into a heap, Go's [context] values are an inductive tree whose
    cancellation state lives in the world, and every interaction with a
    collaborator outside browser.go (the launcher, the control connection,
    the remote endpoint) is an [Action] answered by the remote
    side and recorded on the wire. *)

From Stdlib Require Import ZArith Ascii String.
From stdpp Require Import base list strings gmap.

Set Warnings "-register-all,-clear-no-such-hyp".

Open Scope string_scope.
Open Scope list_scope.
Open Scope Z_scope.

(** ** JSON results (kit.JSONResult, i.e. a gjson result)

    A gjson result keeps the raw text of what it points at ([Raw]) and, for
    a number, its float64 value ([Num]).  Floating point is outside this
    development: [Num] is carried as the text that
    [strconv.FormatFloat(Num, 'f', -1, 64)] prints for it, which is the only
    use [String()] makes of it. *)
Inductive JSON :=
| JNull
| JFalse
| JTrue
| JNumber (raw : string) (num : string)
| JString (s : string)
| JArray (raw : string) (elems : list JSON)
| JObject (raw : string) (members : list (string * JSON)).

(** The loop of [Result.String()] over the raw text of a number: every byte
    is a decimal digit. *)
Definition isDigitByte (c : ascii) : bool :=
  ((48 <=? nat_of_ascii c) && (nat_of_ascii c <=? 57))%nat.

Fixpoint allDigits (s : string) : bool :=
  match s with
  | EmptyString => true
  | String c rest => isDigitByte c && allDigits rest
  end.

(** The raw text of a number is returned as it is when it is an optional
    leading minus sign followed by digits only. *)
Definition plainInteger (raw : string) : bool :=
  match raw with
  | EmptyString => false
  | String c rest =>
      if Ascii.eqb c "-"%char then allDigits rest else allDigits raw
  end.

(** Member lookup for a plain key (no path syntax): the first member of that
    name of an object, the non-existent (null) result anywhere else. *)
Fixpoint jmember (key : string) (ms : list (string * JSON)) : JSON :=
  match ms with
  | [] => JNull
  | (k, v) :: rest => if String.eqb k key then v else jmember key rest
  end.

Definition Get (key : string) (j : JSON) : JSON :=
  match j with
  | JObject _ ms => jmember key ms
  | _ => JNull
  end.

(** [Result.String()]: the string of a string value, the raw text of an
    array or object, and for a number the raw text when that is a plain
    integer literal and the formatted float64 value otherwise (also when the
    raw text is empty). *)
Definition String (j : JSON) : string :=
  match j with
  | JNull => ""
  | JFalse => "false"
  | JTrue => "true"
  | JNumber raw num => if plainInteger raw then raw else num
  | JString s => s
  | JArray raw _ => raw
  | JObject raw _ => raw
  end.

(** [Result.Array()]: the elements of an array, nothing for null, and the
    value itself as the only element otherwise. *)
Definition Array (j : JSON) : list JSON :=
  match j with
  | JArray _ es => es
  | JNull => []
  | _ => [j]
  end.

(** ** Requests, events, errors *)

(** cdp.Request as the literals of browser.go fill it: a method and the
    params object (a Go map, here its key/value pairs; [None] when the
    literal leaves it out). *)
Record Request := {
  Method : string;
  Params : option (list (string * JSON))
}.

(** cdp.Event *)
Record Event := { evMethod : string; evParams : JSON }.

(** EventFilter *)
Definition EventFilter := Event -> bool.

Inductive error :=
| ContextErr                 (* ctx.Err() of a scope that is done *)
| RemoteErr (msg : string).  (* whatever a collaborator reports *)

(** What leaves this file towards a collaborator. *)
Inductive Action :=
| GetWebSocketDebuggerURL (url : string)   (* launcher.GetWebSocketDebuggerURL *)
| LaunchE                                  (* launcher.New().LaunchE() *)
| Dial (url : string)                      (* cdp.New: open the connection *)
| ClientCall (client : nat) (target : option string) (req : Request).

Inductive Reply :=
| Ok (r : JSON)
| Fail (e : error).

(** The remote side: the launcher, the transport and the browser behind it.
    It answers one action at a time and may change its own state. *)
Class Remote (E : Type) := respond : E -> Action -> E * Reply.

(** ** Scopes (Go's context.Context)

    A context is the chain of its derivations down to [Background]; each
    derivation carries the identity of its own cancel function.  A nil
    context is [None] of [option Ctx]. *)
Inductive Ctx :=
| Background
| CancelCtx (id : nat) (parent : Ctx)
| TimerCtx (id : nat) (deadline : Z) (parent : Ctx).

(** [<-ctx.Done()] is ready: the scope's own cancel function was called, its
    deadline has passed, or an ancestor is done. *)
Fixpoint ctxDone (cancelled : gset nat) (now : Z) (c : Ctx) : bool :=
  match c with
  | Background => false
  | CancelCtx id p => bool_decide (id ∈ cancelled) || ctxDone cancelled now p
  | TimerCtx id dl p =>
      bool_decide (id ∈ cancelled) || (dl <=? now) || ctxDone cancelled now p
  end.

(** All cancel identities of a context are below [n]: the context was made by
    a world whose next fresh identity is at least [n]. *)
Fixpoint ctxBelow (n : nat) (c : Ctx) : Prop :=
  match c with
  | Background => True
  | CancelCtx id p => (id < n)%nat /\ ctxBelow n p
  | TimerCtx id _ p => (id < n)%nat /\ ctxBelow n p
  end.

(** [c] is [anc] or was derived from it. *)
Fixpoint derivedFrom (anc c : Ctx) : Prop :=
  c = anc \/
  match c with
  | Background => False
  | CancelCtx _ p => derivedFrom anc p
  | TimerCtx _ _ p => derivedFrom anc p
  end.

(** The cancel function [f] belongs to [c] or to one of its ancestors:
    calling it ends [c]. *)
Fixpoint carriesCancel (f : nat) (c : Ctx) : bool :=
  match c with
  | Background => false
  | CancelCtx id p => Nat.eqb id f || carriesCancel f p
  | TimerCtx id _ p => Nat.eqb id f || carriesCancel f p
  end.

(** ** The Browser struct *)
Record Browser := {
  controlURL : string;
  viewport : option (list (string * JSON));
  slowmotion : Z;
  trace : bool;
  ctx : option Ctx;
  timeoutCancel : option nat;
  close : option nat;
  client : option nat;
  event : option nat
}.

(** [&Browser{}] *)
Definition zeroBrowser : Browser :=
  {| controlURL := ""; viewport := None; slowmotion := 0; trace := false;
     ctx := None; timeoutCancel := None; close := None; client := None;
     event := None |}.

(** The Page struct as [Browser.page] fills it.  [Mouse], [Keyboard] and
    [getDownloadFileLock] are fresh handles that only point back at the page
    and hold no data of their own. *)
Record Page := { pctx : option Ctx; browser : nat; TargetID : string }.

(** ** The goroutine of WaitEventE

    What [b.Event()] gave the goroutine ([None] for a nil observable), the
    captured variables [event] and [err] and whether [Until] has returned. *)
Record Waiter := {
  wobs : option nat;
  wctx : Ctx;
  wfilter : EventFilter;
  wevent : option Event;
  werr : option error;
  wreturned : bool
}.

(** ** The world *)
Record World (E : Type) := {
  heap : list Browser;        (* the Browser values behind *Browser *)
  cancelled : gset nat;       (* cancel functions that have been called *)
  nextCtx : nat;
  now : Z;                    (* logical clock, in time.Duration units *)
  nextObs : nat;              (* observables made by kit.NewObservable *)
  nextClient : nat;
  waiters : list Waiter;
  remote : E;
  wire : list (Action * Reply) (* every exchange so far, oldest first *)
}.
Arguments heap {E}. Arguments cancelled {E}. Arguments nextCtx {E}.
Arguments now {E}. Arguments nextObs {E}. Arguments nextClient {E}.
Arguments waiters {E}. Arguments remote {E}. Arguments wire {E}.

Inductive panic :=
| NilDeref            (* nil pointer dereference *)
| NilContext          (* a nil context used as a parent or waited on *)
| ErrPanic (e : error). (* kit.E *)

Inductive Outcome (A : Type) :=
| Return (a : A)
| Panicked (p : panic).
Arguments Return {A}. Arguments Panicked {A}.

(** The requests of browser.go. *)
Definition setDiscoverTargets : Request :=
  {| Method := "Target.setDiscoverTargets";
     Params := Some [("discover", JTrue)] |}.

Definition browserClose : Request :=
  {| Method := "Browser.close"; Params := None |}.

Definition createTarget : Request :=
  {| Method := "Target.createTarget";
     Params := Some [("url", JString "about:blank")] |}.

Definition getTargets : Request :=
  {| Method := "Target.getTargets"; Params := None |}.

(** [target.Get("type").String() != "page"] is false. *)
Definition isPageTarget (target : JSON) : bool :=
  String.eqb (String (Get "type" target)) "page".

(** [target.Get("targetId").String()] *)
Definition targetIdOf (target : JSON) : string :=
  String (Get "targetId" target).

(** Modelled from the spec: the requests of page.go, which lies outside
    browser.go: the control call that establishes the per-target session, and the
    page-level navigate call. *)
Definition attachToTarget : Request :=
  {| Method := "Target.attachToTarget"; Params := None |}.

Definition navigate (url : string) : Request :=
  {| Method := "Page.navigate"; Params := Some [("url", JString url)] |}.

(** The method of a control call on the wire. *)
Definition calledMethod (x : Action * Reply) : option string :=
  match fst x with
  | ClientCall _ _ req => Some (Method req)
  | _ => None
  end.

(** How many [Target.setDiscoverTargets] calls a piece of the wire holds. *)
Definition isDiscoveryCall (x : Action * Reply) : bool :=
  match calledMethod x with
  | Some m => String.eqb m "Target.setDiscoverTargets"
  | None => false
  end.

Definition discoveryCalls (d : list (Action * Reply)) : nat :=
  length (List.filter isDiscoveryCall d).

(** The exchanges on the wire of client [k] that attached the pages of the
    targets [ts], one after the other, with the endpoint's answers [rs]. *)
Definition attachExchanges (k : nat) (ts rs : list JSON) : list (Action * Reply) :=
  zip_with (fun t r => (ClientCall k (Some (targetIdOf t)) attachToTarget, Ok r))
           ts rs.

Section Model.
Context {E : Type} `{!Remote E}.

Definition M (A : Type) : Type := World E -> Outcome A * World E.

Definition ret {A} (a : A) : M A := fun w => (Return a, w).
Definition throw {A} (p : panic) : M A := fun w => (Panicked p, w).
Definition bind {A B} (m : M A) (k : A -> M B) : M B :=
  fun w => match m w with
           | (Return a, w') => k a w'
           | (Panicked p, w') => (Panicked p, w')
           end.

Notation "x <- m ;; k" := (bind m (fun x => k))
  (at level 100, m at next level, right associativity).
Notation "m ;;; k" := (bind m (fun _ => k))
  (at level 100, right associativity).

(** *** World updates *)
Definition setHeap (h : list Browser) (w : World E) : World E :=
  {| heap := h; cancelled := cancelled w; nextCtx := nextCtx w; now := now w;
     nextObs := nextObs w; nextClient := nextClient w; waiters := waiters w;
     remote := remote w; wire := wire w |}.
Definition setCancelled (s : gset nat) (w : World E) : World E :=
  {| heap := heap w; cancelled := s; nextCtx := nextCtx w; now := now w;
     nextObs := nextObs w; nextClient := nextClient w; waiters := waiters w;
     remote := remote w; wire := wire w |}.
Definition setNextCtx (n : nat) (w : World E) : World E :=
  {| heap := heap w; cancelled := cancelled w; nextCtx := n; now := now w;
     nextObs := nextObs w; nextClient := nextClient w; waiters := waiters w;
     remote := remote w; wire := wire w |}.
Definition setNow (t : Z) (w : World E) : World E :=
  {| heap := heap w; cancelled := cancelled w; nextCtx := nextCtx w; now := t;
     nextObs := nextObs w; nextClient := nextClient w; waiters := waiters w;
     remote := remote w; wire := wire w |}.
Definition setNextObs (n : nat) (w : World E) : World E :=
  {| heap := heap w; cancelled := cancelled w; nextCtx := nextCtx w;
     now := now w; nextObs := n; nextClient := nextClient w;
     waiters := waiters w; remote := remote w; wire := wire w |}.
Definition setNextClient (n : nat) (w : World E) : World E :=
  {| heap := heap w; cancelled := cancelled w; nextCtx := nextCtx w;
     now := now w; nextObs := nextObs w; nextClient := n;
     waiters := waiters w; remote := remote w; wire := wire w |}.
Definition setWaiters (ws : list Waiter) (w : World E) : World E :=
  {| heap := heap w; cancelled := cancelled w; nextCtx := nextCtx w;
     now := now w; nextObs := nextObs w; nextClient := nextClient w;
     waiters := ws; remote := remote w; wire := wire w |}.
Definition setRemote (e : E) (a : Action) (r : Reply) (w : World E) : World E :=
  {| heap := heap w; cancelled := cancelled w; nextCtx := nextCtx w;
     now := now w; nextObs := nextObs w; nextClient := nextClient w;
     waiters := waiters w; remote := e; wire := wire w ++ [(a, r)] |}.

(** *** Pointers *)

(** [*b]: reading through a nil or dangling pointer panics. *)
Definition load (b : nat) : M Browser :=
  fun w => match heap w !! b with
           | Some v => (Return v, w)
           | None => (Panicked NilDeref, w)
           end.

(** [*b = v] *)
Definition store (b : nat) (v : Browser) : M unit :=
  fun w => match heap w !! b with
           | Some _ => (Return tt, setHeap (<[b := v]> (heap w)) w)
           | None => (Panicked NilDeref, w)
           end.

(** [&v] of a fresh value *)
Definition alloc (v : Browser) : M nat :=
  fun w => (Return (length (heap w)), setHeap (heap w ++ [v]) w).

(** *** Scopes in the world *)
Definition isDone (w : World E) (c : Ctx) : bool :=
  ctxDone (cancelled w) (now w) c.

(** Modelled from the spec: kit's [Observable.Until] is defined outside
    browser.go; it waits "until a matching event is published or ctx is
    cancelled" and "returns the matching event or a cancellation outcome".
    This is its turn for a goroutine whose scope is done: it returns
    [nil, ctx.Err()], and the captured [event] keeps what the filter saw
    last. *)
Definition untilDone (x : Waiter) : Waiter :=
  {| wobs := wobs x; wctx := wctx x; wfilter := wfilter x;
     wevent := wevent x; werr := Some ContextErr; wreturned := true |}.

(** Modelled from the spec: the turn of [Until] for a delivered event.  The
    callback of WaitEventE stores it in [event] and asks the filter; on
    [true], [Until] returns it with a nil error. *)
Definition untilEvent (e : Event) (x : Waiter) : Waiter :=
  {| wobs := wobs x; wctx := wctx x; wfilter := wfilter x;
     wevent := Some e; werr := None; wreturned := wfilter x e |}.

(** [b.Event().Until(...)] on a nil observable: the goroutine dereferences
    nil and panics before it gets into [Until]; nothing recovers the panic,
    so whoever waits for the goroutine is never handed a result. *)
Definition nilObservable (x : Waiter) : bool :=
  match wobs x with
  | Some _ => false
  | None => true
  end.

(** The goroutine is inside [Until] on observable [o]. *)
Definition subscribed (x : Waiter) (o : nat) : bool :=
  match wobs x with
  | Some o' => Nat.eqb o' o
  | None => false
  end.

(** Every goroutine that can run does: those whose scope is done return. *)
Definition settleOne (w : World E) (x : Waiter) : Waiter :=
  if wreturned x || nilObservable x then x
  else if isDone w (wctx x) then untilDone x else x.

Definition settle (w : World E) : World E :=
  setWaiters (settleOne w <$> waiters w) w.

(** Calling the cancel function [id]. *)
Definition cancel (id : nat) (w : World E) : World E :=
  settle (setCancelled ({[id]} ∪ cancelled w) w).

(** The world after [time.Sleep(d)], which returns at once for [d <= 0]. *)
Definition slept (d : Z) (w : World E) : World E :=
  settle (setNow (now w + Z.max 0 d) w).

Definition sleep (d : Z) : M unit :=
  fun w => (Return tt, slept d w).

(** [context.WithCancel(parent)]; a nil parent panics. *)
Definition WithCancel (parent : option Ctx) : M (Ctx * nat) :=
  fun w => match parent with
           | None => (Panicked NilContext, w)
           | Some p => (Return (CancelCtx (nextCtx w) p, nextCtx w),
                        setNextCtx (S (nextCtx w)) w)
           end.

(** [context.WithTimeout(parent, d)]; a nil parent panics. *)
Definition WithTimeout (parent : option Ctx) (d : Z) : M (Ctx * nat) :=
  fun w => match parent with
           | None => (Panicked NilContext, w)
           | Some p => (Return (TimerCtx (nextCtx w) (now w + d) p, nextCtx w),
                        setNextCtx (S (nextCtx w)) w)
           end.

(** *** Fluent setters: they write through the receiver *)

Definition New : M nat := alloc zeroBrowser.

Definition withControlURL (url : string) (v : Browser) : Browser :=
  {| controlURL := url; viewport := viewport v; slowmotion := slowmotion v;
     trace := trace v; ctx := ctx v; timeoutCancel := timeoutCancel v;
     close := close v; client := client v; event := event v |}.
Definition withViewport (o : option (list (string * JSON))) (v : Browser) :=
  {| controlURL := controlURL v; viewport := o; slowmotion := slowmotion v;
     trace := trace v; ctx := ctx v; timeoutCancel := timeoutCancel v;
     close := close v; client := client v; event := event v |}.
Definition withSlowmotion (d : Z) (v : Browser) : Browser :=
  {| controlURL := controlURL v; viewport := viewport v; slowmotion := d;
     trace := trace v; ctx := ctx v; timeoutCancel := timeoutCancel v;
     close := close v; client := client v; event := event v |}.
Definition withTrace (t : bool) (v : Browser) : Browser :=
  {| controlURL := controlURL v; viewport := viewport v;
     slowmotion := slowmotion v; trace := t; ctx := ctx v;
     timeoutCancel := timeoutCancel v; close := close v; client := client v;
     event := event v |}.
Definition withCtx (c : option Ctx) (v : Browser) : Browser :=
  {| controlURL := controlURL v; viewport := viewport v;
     slowmotion := slowmotion v; trace := trace v; ctx := c;
     timeoutCancel := timeoutCancel v; close := close v; client := client v;
     event := event v |}.
Definition withTimeoutCancel (f : option nat) (v : Browser) : Browser :=
  {| controlURL := controlURL v; viewport := viewport v;
     slowmotion := slowmotion v; trace := trace v; ctx := ctx v;
     timeoutCancel := f; close := close v; client := client v;
     event := event v |}.
Definition withClose (f : option nat) (v : Browser) : Browser :=
  {| controlURL := controlURL v; viewport := viewport v;
     slowmotion := slowmotion v; trace := trace v; ctx := ctx v;
     timeoutCancel := timeoutCancel v; close := f; client := client v;
     event := event v |}.
Definition withClient (c : option nat) (v : Browser) : Browser :=
  {| controlURL := controlURL v; viewport := viewport v;
     slowmotion := slowmotion v; trace := trace v; ctx := ctx v;
     timeoutCancel := timeoutCancel v; close := close v; client := c;
     event := event v |}.
Definition withEvent (o : option nat) (v : Browser) : Browser :=
  {| controlURL := controlURL v; viewport := viewport v;
     slowmotion := slowmotion v; trace := trace v; ctx := ctx v;
     timeoutCancel := timeoutCancel v; close := close v; client := client v;
     event := o |}.

Definition ControlURL (b : nat) (url : string) : M nat :=
  v <- load b ;; store b (withControlURL url v) ;;; ret b.

Definition Viewport (b : nat) (opts : option (list (string * JSON))) : M nat :=
  v <- load b ;; store b (withViewport opts v) ;;; ret b.

Definition Slowmotion (b : nat) (delay : Z) : M nat :=
  v <- load b ;; store b (withSlowmotion delay v) ;;; ret b.

Definition Trace (b : nat) (enable : bool) : M nat :=
  v <- load b ;; store b (withTrace enable v) ;;; ret b.

(** *** Context and Timeout *)

(** [newObj := *b; newObj.ctx = ctx; return &newObj] *)
Definition Context (b : nat) (c : option Ctx) : M nat :=
  v <- load b ;;
  alloc (withCtx c v).

(** [ctx, cancel := context.WithTimeout(b.ctx, d); b.timeoutCancel = cancel;
    return b.Context(ctx)] *)
Definition Timeout (b : nat) (d : Z) : M nat :=
  v <- load b ;;
  cc <- WithTimeout (ctx v) d ;;
  store b (withTimeoutCancel (Some (snd cc)) v) ;;;
  Context b (Some (fst cc)).

(** *** Talking to the remote side *)

(** One exchange: the action goes out, the remote side answers, and both are
    recorded on the wire. *)
Definition answered (a : Action) (w : World E) : World E :=
  setRemote (fst (respond (remote w) a)) a (snd (respond (remote w) a)) w.

Definition exchange (a : Action) : M Reply :=
  fun w => (Return (snd (respond (remote w) a)), answered a w).

(** A reply as the Go pair [(result, err)]. *)
Definition replyResult (r : Reply) : JSON * option error :=
  match r with
  | Ok j => (j, None)
  | Fail e => (JNull, Some e)
  end.

(** Modelled from the spec: [Browser.trySlowmotion] is defined outside browser.go;
    the spec's Call "applies the configured artificial delay". *)
Definition trySlowmotion (v : Browser) (method : string) : M unit :=
  sleep (slowmotion v).

(** Modelled from the spec: [cdp.Client.Call] is defined outside browser.go.  The call
    is forwarded "with the session's current cancellation scope" and yields
    the endpoint's result, its error, or the cancellation error of a scope
    that is done; a request under a scope that is already done is not sent.
    A nil client or a nil context panics, as any Go method would. *)
Definition clientCall (cl : option nat) (c : option Ctx)
    (target : option string) (req : Request) : M (JSON * option error) :=
  match cl, c with
  | None, _ => throw NilDeref
  | Some _, None => throw NilContext
  | Some k, Some sc =>
      fun w =>
        if isDone w sc then (Return (JNull, Some ContextErr), w)
        else (r <- exchange (ClientCall k target req) ;; ret (replyResult r)) w
  end.

(** [b.trySlowmotion(req.Method); return b.client.Call(b.ctx, req)] *)
Definition Call (b : nat) (req : Request) : M (JSON * option error) :=
  v <- load b ;;
  trySlowmotion v (Method req) ;;;
  clientCall (client v) (ctx v) None req.

(** [b.Event()] *)
Definition EventOf (b : nat) : M (option nat) :=
  v <- load b ;; ret (event v).

(** [kit.NewObservable()] *)
Definition NewObservable : M nat :=
  fun w => (Return (nextObs w), setNextObs (S (nextObs w)) w).

(** Modelled from the spec: [cdp.New] is defined outside browser.go; it "establishes the
    ControlConnection" or fails. *)
Definition cdpNew (c : option Ctx) (url : string) : M (option nat * option error) :=
  r <- exchange (Dial url) ;;
  match r with
  | Fail e => ret (None, Some e)
  | Ok _ => fun w => (Return (Some (nextClient w), None),
                      setNextClient (S (nextClient w)) w)
  end.

(** [initEvents].  The goroutine that forwards [b.client.Event()] runs beside
    the caller: each of its [go b.event.Publish(msg)] is a [Publish] step of
    the world, below. *)
Definition initEvents (b : nat) : M (option error) :=
  v <- load b ;;
  o <- NewObservable ;;
  store b (withEvent (Some o) v) ;;;
  r <- Call b setDiscoverTargets ;;
  ret (snd r).

(** Lines 74-81 of ConnectE: open the connection, keep the client, enable
    discovery. *)
Definition connectClient (b : nat) : M (option error) :=
  v <- load b ;;
  r <- cdpNew (ctx v) (controlURL v) ;;
  match snd r with
  | Some e => ret (Some e)
  | None => store b (withClient (fst r) v) ;;; initEvents b
  end.

(** Lines 60-64 of ConnectE: a handle without a scope gets a cancellable
    root scope, whose cancel function becomes [close]. *)
Definition rootScope (b : nat) : M unit :=
  v <- load b ;;
  match ctx v with
  | None =>
      cc <- WithCancel (Some Background) ;;
      store b (withClose (Some (snd cc)) (withCtx (Some (fst cc)) v))
  | Some _ => ret tt
  end.

(** Lines 66-81 of ConnectE: probe the control URL, launch when the probe
    fails, then connect. *)
Definition resolveAndConnect (b : nat) : M (option error) :=
  v <- load b ;;
  probe <- exchange (GetWebSocketDebuggerURL (controlURL v)) ;;
  match probe with
  | Fail _ =>
      u <- exchange LaunchE ;;
      match u with
      | Fail e => ret (Some e)
      | Ok url => store b (withControlURL (String url) v) ;;; connectClient b
      end
  | Ok _ => connectClient b
  end.

Definition ConnectE (b : nat) : M (option error) :=
  rootScope b ;;; resolveAndConnect b.

Definition CloseE (b : nat) : M (option error) :=
  r <- Call b browserClose ;;
  match snd r with
  | Some e => ret (Some e)
  | None =>
      v <- load b ;;
      match close v with
      | Some f => fun w => (Return tt, cancel f w)
      | None => ret tt
      end ;;;
      ret None
  end.

(** *** Pages *)

(** Modelled from the spec: [Page.Call] is defined outside browser.go; page-level calls
    are "control calls scoped through the owning Page's current Session",
    here the browser's client under the page's scope, addressed to the page's
    target. *)
Definition pageCall (p : Page) (req : Request) : M (JSON * option error) :=
  v <- load (browser p) ;;
  trySlowmotion v (Method req) ;;;
  clientCall (client v) (pctx p) (Some (TargetID p)) req.

(** Modelled from the spec: [Page.initSession] is defined outside browser.go.
    "Attachment occurs once, at construction": the per-target control session
    is established by one control call, which may fail. *)
Definition initSession (p : Page) : M (option error) :=
  r <- pageCall p attachToTarget ;;
  ret (snd r).

(** Modelled from the spec: [Page.NavigateE] is defined outside browser.go; it issues
    the page-level navigate call for [url]. *)
Definition NavigateE (p : Page) (url : string) : M (option error) :=
  r <- pageCall p (navigate url) ;;
  ret (snd r).

Definition page (b : nat) (targetID : string) : M (Page * option error) :=
  v <- load b ;;
  let p := {| pctx := ctx v; browser := b; TargetID := targetID |} in
  e <- initSession p ;;
  ret (p, e).

Definition PageE (b : nat) (url : string) : M (option Page * option error) :=
  target <- Call b createTarget ;;
  match snd target with
  | Some e => ret (None, Some e)
  | None =>
      pe <- page b (targetIdOf (fst target)) ;;
      match snd pe with
      | Some e => ret (None, Some e)
      | None =>
          e <- NavigateE (fst pe) url ;;
          match e with
          | Some e => ret (None, Some e)
          | None => ret (Some (fst pe), None)
          end
      end
  end.

(** The [for ... range] of PagesE over the listed targets. *)
Fixpoint pagesLoop (b : nat) (targets : list JSON) (pageList : list Page)
    : M (option (list Page) * option error) :=
  match targets with
  | [] => ret (Some pageList, None)
  | target :: rest =>
      if negb (isPageTarget target)
      then pagesLoop b rest pageList
      else
        pe <- page b (targetIdOf target) ;;
        match snd pe with
        | Some e => ret (None, Some e)
        | None => pagesLoop b rest (pageList ++ [fst pe])
        end
  end.

Definition PagesE (b : nat) : M (option (list Page) * option error) :=
  list <- Call b getTargets ;;
  match snd list with
  | Some e => ret (None, Some e)
  | None => pagesLoop b (Array (Get "targetInfos" (fst list))) []
  end.

(** *** Events *)

(** Modelled from the spec: kit's [Observable.Publish] is defined outside
    browser.go.  [go b.event.Publish(msg)] on observable [o]: the event
    reaches every goroutine still inside [Until] on [o]; one whose scope is
    done returns the cancellation outcome instead. *)
Definition receive (w : World E) (o : nat) (e : Event) (x : Waiter) : Waiter :=
  if wreturned x || nilObservable x then x
  else if isDone w (wctx x) then untilDone x
  else if subscribed x o then untilEvent e x
  else x.

Definition Publish (o : nat) (e : Event) (w : World E) : World E :=
  setWaiters (receive w o e <$> waiters w) w.

(** Events published one after the other, each on its observable. *)
Definition publishAll (evs : list (nat * Event)) (w : World E) : World E :=
  fold_left (fun w' oe => Publish (fst oe) (snd oe) w') evs w.

(** WaitEventE: the goroutine is started at once; the result is the handle
    of the wait accessor and the identity of [cancel].  [b.Event()] is
    evaluated by the goroutine (inside the closure given to [kit.All]), so a
    handle without an observable does not stop WaitEventE from returning:
    the nil dereference happens in the goroutine. *)
Definition WaitEventE (b : nat) (filter : EventFilter) : M (nat * nat) :=
  v <- load b ;;
  cc <- WithCancel (ctx v) ;;
  fun w =>
    (Return (length (waiters w), snd cc),
     settle (setWaiters
               (waiters w ++
                [{| wobs := event v; wctx := fst cc; wfilter := filter;
                    wevent := None; werr := None; wreturned := false |}])
               w)).

(** The accessor returned by WaitEventE: [w(); return event, err].  [None]
    while [w()] still blocks. *)
Definition waitE (h : nat) (w : World E) : option (option Event * option error) :=
  match waiters w !! h with
  | Some x => if wreturned x then Some (wevent x, werr x) else None
  | None => None
  end.

(** The goroutine behind handle [h] is still registered on its observable. *)
Definition registered (h : nat) (w : World E) : bool :=
  match waiters w !! h with
  | Some x => negb (wreturned x) && negb (nilObservable x)
  | None => false
  end.

(** The goroutine behind handle [h] died on a nil observable. *)
Definition goroutinePanic (h : nat) (w : World E) : option panic :=
  match waiters w !! h with
  | Some x => if nilObservable x then Some NilDeref else None
  | None => None
  end.

(** *** Convenience forms *)

(** [kit.E(err)]: panic with the error when there is one. *)
Definition kit_E (err : option error) : M unit :=
  match err with
  | Some e => throw (ErrPanic e)
  | None => ret tt
  end.

Definition Connect (b : nat) : M nat :=
  e <- ConnectE b ;; kit_E e ;;; ret b.

Definition Close (b : nat) : M unit :=
  e <- CloseE b ;; kit_E e.

(** [Browser.Page] *)
Definition Browser_Page (b : nat) (url : string) : M (option Page) :=
  r <- PageE b url ;; kit_E (snd r) ;;; ret (fst r).

Definition Pages (b : nat) : M (option (list Page)) :=
  r <- PagesE b ;; kit_E (snd r) ;;; ret (fst r).

(** Modelled from the spec: [Method(name)] is defined outside browser.go; it is the
    "method-name" filter of the event subscription. *)
Definition MethodFilter (name : string) : EventFilter :=
  fun e => String.eqb (evMethod e) name.

Definition WaitEvent (b : nat) (name : string) : M (nat * nat) :=
  WaitEventE b (MethodFilter name).

(** The accessor returned by WaitEvent: [e, err := w(); kit.E(err); return e]. *)
Definition wait (h : nat) (w : World E) : option (Outcome (option Event)) :=
  match waitE h w with
  | None => None
  | Some (e, Some err) => Some (Panicked (ErrPanic err))
  | Some (e, None) => Some (Return e)
  end.

(** An explicit-failure form that yields only an error, paired with the
    value its convenience form hands back. *)
Definition withValue {A} (a : A) (m : M (option error)) : M (A * option error) :=
  e <- m ;; ret (a, e).

(** The spec's wording of a convenience form: run the explicit-failure form,
    abort on its failure, hand back its value otherwise. *)
Definition abortOnFailure {A} (explicit : M (A * option error)) : M A :=
  fun w => match explicit w with
           | (Return (a, None), w') => (Return a, w')
           | (Return (_, Some e), w') => (Panicked (ErrPanic e), w')
           | (Panicked p, w') => (Panicked p, w')
           end.

End Model.

(** ** Connect, in the spec's words

    "Resolves a control endpoint (reusing a supplied one, or invoking the
    external launcher collaborator when absent), establishes the
    ControlConnection, and issues an initial enable-discovery control call;
    fails on any step's failure."  The exchanges such a run may leave on the
    wire, with the result it then has. *)

(** Resolving the endpoint: the exchanges, and the URL to dial or the
    launcher's error. *)
Inductive resolved (url : string) : list (Action * Reply) -> string + error -> Prop :=
| resolved_supplied r :
    resolved url [(GetWebSocketDebuggerURL url, Ok r)] (inl url)
| resolved_launched e u :
    resolved url [(GetWebSocketDebuggerURL url, Fail e); (LaunchE, Ok u)]
             (inl (String u))
| resolved_failed e e' :
    resolved url [(GetWebSocketDebuggerURL url, Fail e); (LaunchE, Fail e')]
             (inr e').

(** Connecting client [k] to [u] and enabling discovery.  [done] tells
    whether the handle's scope is done when the run ends: the discovery call
    is missing from the wire after a successful dial only in a run under a
    scope that is done, which has the cancellation error for its result; a
    run under a live scope that got through the dial holds exactly one
    discovery exchange. *)
Inductive connected (k : nat) (u : string) :
    bool -> list (Action * Reply) -> option error -> Prop :=
| connected_dial_failed done e :
    connected k u done [(Dial u, Fail e)] (Some e)
| connected_cancelled r :
    connected k u true [(Dial u, Ok r)] (Some ContextErr)
| connected_discovery_failed r e :
    connected k u false
              [(Dial u, Ok r); (ClientCall k None setDiscoverTargets, Fail e)]
              (Some e)
| connected_ok r r' :
    connected k u false
              [(Dial u, Ok r); (ClientCall k None setDiscoverTargets, Ok r')]
              None.

Inductive connectRun (url : string) (k : nat) :
    bool -> list (Action * Reply) -> option error -> Prop :=
| connectRun_unresolved done pre e :
    resolved url pre (inr e) -> connectRun url k done pre (Some e)
| connectRun_resolved done pre u d r :
    resolved url pre (inl u) -> connected k u done d r ->
    connectRun url k done (pre ++ d) r.

(** ** Endpoints that keep their targets

    What the spec's "the target remains allocated" asks of the remote side.
    [holds s T]: the endpoint in state [s] holds target [T]. *)
Record KeepsTargets {E} `{!Remote E} (holds : E -> string -> Prop) : Prop := {
  (** a target it answered a create-target call with is held *)
  created_held : forall s k j,
    snd (respond s (ClientCall k None createTarget)) = Ok j ->
    holds (fst (respond s (ClientCall k None createTarget))) (targetIdOf j);
  (** a target is held until a call asks to close it or the browser *)
  held_kept : forall s k tg req T,
    Method req <> "Target.closeTarget" -> Method req <> "Browser.close" ->
    holds s T -> holds (fst (respond s (ClientCall k tg req))) T;
  (** a listing that it answers shows every held target as a page *)
  held_listed : forall s k j T,
    holds s T ->
    snd (respond s (ClientCall k None getTargets)) = Ok j ->
    exists t, In t (Array (Get "targetInfos" j)) /\
              isPageTarget t = true /\ targetIdOf t = T
}.

(** [ok s]: the endpoint in state [s] answers listings and attach calls, and
    goes on doing so. *)
Record AnswersPages {E} `{!Remote E} (ok : E -> Prop) : Prop := {
  ok_kept : forall s a, ok s -> ok (fst (respond s a));
  list_answered : forall s k,
    ok s -> exists j, snd (respond s (ClientCall k None getTargets)) = Ok j;
  attach_answered : forall s k T,
    ok s ->
    exists r, snd (respond s (ClientCall k (Some T) attachToTarget)) = Ok r
}.

(** ** A stub endpoint

    A small remote side for concrete runs: control URLs that answer, what the
    launcher would start, the methods it rejects, and the targets it holds. *)
Record Stub := {
  usable : list string;
  launches : option string;
  rejects : list string;
  freshTarget : string;
  targets : list (string * string)   (* target id, type *)
}.

Definition knows (s : string) (l : list string) : bool :=
  existsb (String.eqb s) l.

Definition targetInfo (t : string * string) : JSON :=
  JObject "" [("targetId", JString (fst t)); ("type", JString (snd t))].

Definition stubCall (s : Stub) (req : Request) : Stub * Reply :=
  if knows (Method req) (rejects s) then (s, Fail (RemoteErr (Method req)))
  else if String.eqb (Method req) "Target.createTarget" then
    ({| usable := usable s; launches := launches s; rejects := rejects s;
        freshTarget := (freshTarget s ++ "'")%string;
        targets := targets s ++ [(freshTarget s, "page")] |},
     Ok (JObject "" [("targetId", JString (freshTarget s))]))
  else if String.eqb (Method req) "Target.getTargets" then
    (s, Ok (JObject "" [("targetInfos", JArray "" (map targetInfo (targets s)))]))
  else (s, Ok (JObject "" [])).

Definition stubRespond (s : Stub) (a : Action) : Stub * Reply :=
  match a with
  | GetWebSocketDebuggerURL url =>
      (s, if knows url (usable s) then Ok (JString url)
          else Fail (RemoteErr "no debugger url"))
  | LaunchE =>
      match launches s with
      | Some u =>
          ({| usable := u :: usable s; launches := launches s;
              rejects := rejects s; freshTarget := freshTarget s;
              targets := targets s |}, Ok (JString u))
      | None => (s, Fail (RemoteErr "no browser"))
      end
  | Dial url =>
      (s, if knows url (usable s) then Ok JNull
          else Fail (RemoteErr "dial"))
  | ClientCall _ _ req => stubCall s req
  end.

#[export] Instance stubRemote : Remote Stub := stubRespond.

(** A world with nothing in it but the remote side. *)
Definition emptyWorld {E} (e : E) : World E :=
  {| heap := []; cancelled := ∅; nextCtx := 0%nat; now := 0;
     nextObs := 0%nat; nextClient := 0%nat; waiters := []; remote := e;
     wire := [] |}.

Definition stub0 : Stub :=
  {| usable := ["ws://a"]; launches := None; rejects := [];
     freshTarget := "T1"; targets := [("T0", "page"); ("W", "worker")] |}.

(** A connected browser at address 0 in front of [stub]. *)
Definition connectedWorld (stub : Stub) : World Stub :=
  {| heap := [ {| controlURL := "ws://a"; viewport := None; slowmotion := 0;
                  trace := false; ctx := Some (CancelCtx 0 Background);
                  timeoutCancel := None; close := Some 0%nat;
                  client := Some 0%nat; event := Some 0%nat |} ];
     cancelled := ∅; nextCtx := 1%nat; now := 0; nextObs := 1%nat;
     nextClient := 1%nat; waiters := []; remote := stub; wire := [] |}.

(** A handle that was made by [New] and given a control URL, not yet
    connected. *)
Definition unconnectedWorld (stub : Stub) : World Stub :=
  {| heap := [withControlURL "ws://a" zeroBrowser];
     cancelled := ∅; nextCtx := 0%nat; now := 0; nextObs := 0%nat;
     nextClient := 0%nat; waiters := []; remote := stub; wire := [] |}.

(** A world in which a second, unrelated scope (cancel function 1) exists
    beside the browser's own (cancel function 0). *)
Definition twoScopes : World Stub := setNextCtx 2%nat (connectedWorld stub0).

(** The value of the connected browser of [connectedWorld]. *)
Definition connectedBrowser : Browser :=
  {| controlURL := "ws://a"; viewport := None; slowmotion := 0;
     trace := false; ctx := Some (CancelCtx 0 Background);
     timeoutCancel := None; close := Some 0%nat;
     client := Some 0%nat; event := Some 0%nat |}.

(** Stubs that reject one method each. *)
Definition stubRejecting (method : string) : Stub :=
  {| usable := usable stub0; launches := launches stub0; rejects := [method];
     freshTarget := freshTarget stub0; targets := targets stub0 |}.

(** A stub that rejects several methods. *)
Definition stubRejectingAll (methods : list string) : Stub :=
  {| usable := usable stub0; launches := launches stub0; rejects := methods;
     freshTarget := freshTarget stub0; targets := targets stub0 |}.

(** [b := New().Context(ctx).ControlURL("ws://a")] for a cancellable [ctx] of
    the caller, then [b.ConnectE()] and [b.CloseE()]: the handle, the caller's
    scope and the two results. *)
Definition closeUnderCallerScope
    : Outcome (nat * Ctx * option error * option error) * World Stub :=
  bind New (fun b0 =>
  bind (WithCancel (Some Background)) (fun cc =>
  bind (Context b0 (Some (fst cc))) (fun b1 =>
  bind (ControlURL b1 "ws://a") (fun _ =>
  bind (ConnectE b1) (fun e1 =>
  bind (CloseE b1) (fun e2 =>
  ret (b1, fst cc, e1, e2)))))))
  (emptyWorld stub0).

(** ** The device-list generator: normalizeName

    A Go string is its bytes.  The three string functions used work on the
    single ASCII bytes "/" and " ", which never occur inside a multi-byte
    UTF-8 sequence, so they are the byte-level functions below. *)

Definition isASCII (c : ascii) : bool := (nat_of_ascii c <? 128)%nat.

Definition isLowerByte (c : ascii) : bool :=
  (97 <=? nat_of_ascii c)%nat && (nat_of_ascii c <=? 122)%nat.

(** [strings.ToUpper] of the one-byte string [c]: an ASCII letter is
    upper-cased and any other ASCII byte kept; a byte that is not ASCII is not
    valid UTF-8 on its own and is mapped to U+FFFD, the bytes EF BF BD. *)
Definition upperByte (c : ascii) : list ascii :=
  if isASCII c
  then [if isLowerByte c then ascii_of_nat (nat_of_ascii c - 32) else c]
  else ["239"; "191"; "189"]%char.

(** [strings.ReplaceAll(name, "/", "or")] *)
Fixpoint replaceSlash (s : list ascii) : list ascii :=
  match s with
  | [] => []
  | c :: rest =>
      if Ascii.eqb c "/" then "o"%char :: "r"%char :: replaceSlash rest
      else c :: replaceSlash rest
  end.

(** [strings.Split(name, " ")]: n separators give n+1 pieces, empty ones
    included; the empty string gives one empty piece. *)
Fixpoint splitSpace (s : list ascii) : list (list ascii) :=
  match s with
  | [] => [[]]
  | c :: rest =>
      if Ascii.eqb c " " then [] :: splitSpace rest
      else match splitSpace rest with
           | p :: ps => (c :: p) :: ps
           | [] => [[c]]
           end
  end.

(** The body of the loop of normalizeName: [strings.ToUpper(s[0:1]) + s[1:]]
    for [len(s) > 1], [strings.ToUpper(s)] otherwise. *)
Definition capitalize (s : list ascii) : list ascii :=
  match s with
  | c :: (_ :: _) as rest => upperByte c ++ rest
  | [c] => upperByte c
  | [] => []
  end.

(** [strings.Join(list, "")] over the capitalized pieces. *)
Definition normalizeName (name : list ascii) : list ascii :=
  concat (map capitalize (splitSpace (replaceSlash name))).

(** A computation that creates and cancels no scope. *)
Definition keepsScopes {E A} (m : World E -> Outcome A * World E) : Prop :=
  forall w, nextCtx (snd (m w)) = nextCtx w /\ cancelled (snd (m w)) = cancelled w.

(** * Properties *)

(** ** Scopes *)
Section Scopes.
Context {E : Type} `{!Remote E}.
Implicit Types (w : World E) (c : Ctx) (s : gset nat).

Lemma ctxDone_derivedFrom s t anc c :
  derivedFrom anc c -> ctxDone s t anc = true -> ctxDone s t c = true.
Proof.
  induction c as [|id p IH|id dl p IH]; intros [Heq|Hd] Hdone;
    try (subst anc; exact Hdone); try done; simpl.
  - rewrite (IH Hd Hdone). apply orb_true_r.
  - rewrite (IH Hd Hdone). apply orb_true_r.
Qed.

Lemma ctxDone_cancel_other s t f c :
  ctxBelow f c -> ctxDone ({[f]} ∪ s) t c = ctxDone s t c.
Proof.
  induction c as [|id p IH|id dl p IH]; simpl; [done| |];
    intros [Hlt Hp]; rewrite (IH Hp); f_equal; try f_equal;
    apply bool_decide_ext; rewrite elem_of_union, elem_of_singleton;
    intuition lia.
Qed.

Lemma isDone_cancel f w c :
  isDone (cancel f w) c = ctxDone ({[f]} ∪ cancelled w) (now w) c.
Proof. reflexivity. Qed.

(** A cancel function reaches only the contexts that carry it. *)
Lemma isDone_cancel_foreign f w c :
  carriesCancel f c = false -> isDone (cancel f w) c = isDone w c.
Proof.
  rewrite isDone_cancel. unfold isDone.
  induction c as [|id p IH|id dl p IH]; simpl; [done| |];
    intros [Hid Hp]%orb_false_iff; rewrite (IH Hp); f_equal; try f_equal;
    apply Nat.eqb_neq in Hid;
    apply bool_decide_ext; rewrite elem_of_union, elem_of_singleton;
    intuition congruence.
Qed.

Lemma isDone_cancel_carried f w c :
  carriesCancel f c = true -> isDone (cancel f w) c = true.
Proof.
  rewrite isDone_cancel.
  induction c as [|id p IH|id dl p IH]; simpl; [done| |];
    intros [Hid|Hp]%orb_true_iff.
  - apply Nat.eqb_eq in Hid as ->.
    rewrite bool_decide_eq_true_2; [done|set_solver].
  - rewrite (IH Hp). apply orb_true_r.
  - apply Nat.eqb_eq in Hid as ->.
    rewrite bool_decide_eq_true_2; [done|set_solver].
  - rewrite (IH Hp). apply orb_true_r.
Qed.

Lemma isDone_cancel_below f w c :
  ctxBelow f c -> isDone (cancel f w) c = isDone w c.
Proof. intros Hb. rewrite isDone_cancel. by apply ctxDone_cancel_other. Qed.

Lemma isDone_cancel_own f w p :
  isDone (cancel f w) (CancelCtx f p) = true.
Proof.
  rewrite isDone_cancel. simpl. rewrite bool_decide_eq_true_2; [done|set_solver].
Qed.

Lemma isDone_cancel_timer f w dl p :
  isDone (cancel f w) (TimerCtx f dl p) = true.
Proof.
  rewrite isDone_cancel. simpl. rewrite bool_decide_eq_true_2; [done|set_solver].
Qed.

Lemma isDone_cancel_mono f w c : isDone w c = true -> isDone (cancel f w) c = true.
Proof.
  rewrite isDone_cancel. unfold isDone.
  induction c as [|id p IH|id dl p IH]; simpl; [done| |]; intros Hd.
  - apply orb_true_iff in Hd as [Hd|Hd].
    + apply bool_decide_eq_true in Hd.
      rewrite bool_decide_eq_true_2; [done|set_solver].
    + rewrite (IH Hd). apply orb_true_r.
  - apply orb_true_iff in Hd as [Hd|Hd].
    + apply orb_true_iff in Hd as [Hd|Hd].
      * apply bool_decide_eq_true in Hd.
        rewrite bool_decide_eq_true_2; [done|set_solver].
      * rewrite Hd. by rewrite orb_true_r.
    + rewrite (IH Hd). apply orb_true_r.
Qed.

End Scopes.

(** ** Derived handles: Context and Timeout *)
Section Derive.
Context {E : Type} `{!Remote E}.
Implicit Types (w : World E) (v : Browser).

Lemma Context_run b c w v :
  heap w !! b = Some v ->
  Context b c w = (Return (length (heap w)), setHeap (heap w ++ [withCtx c v]) w).
Proof. intros Hb. unfold Context, bind, load, alloc. by rewrite Hb. Qed.

Lemma Timeout_run b d w v c :
  heap w !! b = Some v -> ctx v = Some c ->
  Timeout b d w =
    (Return (length (heap w)),
     setHeap
       (<[b := withTimeoutCancel (Some (nextCtx w)) v]> (heap w) ++
        [withCtx (Some (TimerCtx (nextCtx w) (now w + d) c))
                 (withTimeoutCancel (Some (nextCtx w)) v)])
       (setNextCtx (S (nextCtx w)) w)).
Proof.
  intros Hb Hc. pose proof (lookup_lt_Some _ _ _ Hb) as Hlt.
  unfold Timeout, bind, load, WithTimeout, store. rewrite Hb, Hc. simpl.
  rewrite Hb. rewrite (Context_run _ _ _ (withTimeoutCancel (Some (nextCtx w)) v)).
  - simpl. by rewrite length_insert.
  - simpl. by apply list_lookup_insert_eq.
Qed.

(** C1 (as amended).  [Context] returns a fresh handle whose value is the
    value of [b] with [ctx] replaced (so it shares the client), and leaves the
    whole heap, [b] included, as it was.  [Timeout], on a handle that has a
    scope, returns a fresh handle that shares the client and every field but
    [ctx] with [b] as [Timeout] leaves it, changes no field of [b] other than
    [timeoutCancel], and changes no other handle. *)
Theorem derive_copy b v w :
  heap w !! b = Some v ->
  (forall c, exists w',
      Context b c w = (Return (length (heap w)), w') /\
      heap w' = heap w ++ [withCtx c v] /\
      heap w' !! b = Some v /\
      client (withCtx c v) = client v) /\
  (forall d c, ctx v = Some c ->
     exists w' f,
       Timeout b d w = (Return (length (heap w)), w') /\
       heap w' !! b = Some (withTimeoutCancel (Some f) v) /\
       heap w' !! length (heap w) =
         Some (withCtx (Some (TimerCtx f (now w + d) c))
                       (withTimeoutCancel (Some f) v)) /\
       (forall a u, a <> b -> heap w !! a = Some u -> heap w' !! a = Some u)).
Proof.
  intros Hb. pose proof (lookup_lt_Some _ _ _ Hb) as Hlt. split.
  - intros c. eexists. rewrite (Context_run _ _ _ _ Hb).
    split; [reflexivity|]. simpl. split; [done|]. split; [|done].
    by rewrite lookup_app_l.
  - intros d c Hc. eexists. exists (nextCtx w).
    rewrite (Timeout_run _ _ _ _ _ Hb Hc). split; [reflexivity|]. simpl.
    split; [|split].
    + rewrite lookup_app_l by (by rewrite length_insert).
      by apply list_lookup_insert_eq.
    + rewrite lookup_app_r by (by rewrite length_insert).
      by rewrite length_insert, Nat.sub_diag.
    + intros a u Hne Ha. pose proof (lookup_lt_Some _ _ _ Ha).
      rewrite lookup_app_l by (by rewrite length_insert).
      by rewrite list_lookup_insert_ne.
Qed.

End Derive.

(** ** Control calls *)
Section Calls.
Context {E : Type} `{!Remote E}.
Implicit Types (w : World E) (v : Browser).

Lemma answered_wire a w :
  wire (answered a w) = wire w ++ [(a, snd (respond (remote w) a))].
Proof. reflexivity. Qed.

Lemma answered_heap a w : heap (answered a w) = heap w.
Proof. reflexivity. Qed.

Lemma slept_wire d w : wire (slept d w) = wire w.
Proof. reflexivity. Qed.

Lemma slept_heap d w : heap (slept d w) = heap w.
Proof. reflexivity. Qed.

Lemma slept_remote d w : remote (slept d w) = remote w.
Proof. reflexivity. Qed.

Lemma clientCall_run k sc tg req w :
  clientCall (Some k) (Some sc) tg req w =
    if isDone w sc then (Return (JNull, Some ContextErr), w)
    else (Return (replyResult (snd (respond (remote w) (ClientCall k tg req)))),
          answered (ClientCall k tg req) w).
Proof. reflexivity. Qed.

Lemma clientCall_ok k sc tg req w j w1 :
  clientCall (Some k) (Some sc) tg req w = (Return (j, None), w1) ->
  isDone w sc = false /\
  snd (respond (remote w) (ClientCall k tg req)) = Ok j /\
  w1 = answered (ClientCall k tg req) w.
Proof.
  rewrite clientCall_run. destruct (isDone w sc); [discriminate|].
  destruct (snd (respond _ _)) as [r|e] eqn:Hr; simpl; intros [= <- <-]; auto.
Qed.

Lemma clientCall_err k sc tg req w j e w1 :
  clientCall (Some k) (Some sc) tg req w = (Return (j, Some e), w1) ->
  (isDone w sc = true /\ e = ContextErr /\ w1 = w) \/
  (isDone w sc = false /\
   snd (respond (remote w) (ClientCall k tg req)) = Fail e /\
   w1 = answered (ClientCall k tg req) w).
Proof.
  rewrite clientCall_run. destruct (isDone w sc).
  - intros [= <- <- <-]. by left.
  - destruct (snd (respond _ _)) as [r|e'] eqn:Hr; simpl; [discriminate|].
    intros [= <- <- <-]. by right.
Qed.

Lemma clientCall_returns k sc tg req w :
  exists r w1, clientCall (Some k) (Some sc) tg req w = (Return r, w1) /\
               heap w1 = heap w.
Proof.
  rewrite clientCall_run. destruct (isDone w sc); eexists _, _; split; done.
Qed.

Lemma Call_run b req w v :
  heap w !! b = Some v ->
  Call b req w = clientCall (client v) (ctx v) None req (slept (slowmotion v) w).
Proof. intros Hb. unfold Call, bind, load. by rewrite Hb. Qed.

(** A call that returns was made through a client and under a scope. *)
Lemma Call_inv b req w r w1 :
  Call b req w = (Return r, w1) ->
  exists v k sc, heap w !! b = Some v /\ client v = Some k /\ ctx v = Some sc.
Proof.
  unfold Call, bind, load. destruct (heap w !! b) as [v|]; [|discriminate].
  simpl. destruct (client v) as [k|] eqn:Hk, (ctx v) as [sc|] eqn:Hc;
    try discriminate.
  intros _. by exists v, k, sc.
Qed.

Lemma pageCall_run p req w v :
  heap w !! browser p = Some v ->
  pageCall p req w =
    clientCall (client v) (pctx p) (Some (TargetID p)) req
               (slept (slowmotion v) w).
Proof. intros Hb. unfold pageCall, bind, load. by rewrite Hb. Qed.

Lemma page_run b T w v :
  heap w !! b = Some v ->
  page b T w =
    match clientCall (client v) (ctx v) (Some T) attachToTarget
                     (slept (slowmotion v) w) with
    | (Return r, w') =>
        (Return ({| pctx := ctx v; browser := b; TargetID := T |}, snd r), w')
    | (Panicked x, w') => (Panicked x, w')
    end.
Proof.
  intros Hb. unfold page, initSession, bind, load. rewrite Hb.
  rewrite (pageCall_run _ _ _ v) by done. simpl.
  by destruct (clientCall _ _ _ _ _) as [[r|x] w'].
Qed.

Lemma NavigateE_run p url w v :
  heap w !! browser p = Some v ->
  NavigateE p url w =
    match clientCall (client v) (pctx p) (Some (TargetID p)) (navigate url)
                     (slept (slowmotion v) w) with
    | (Return r, w') => (Return (snd r), w')
    | (Panicked x, w') => (Panicked x, w')
    end.
Proof.
  intros Hb. unfold NavigateE, bind. rewrite (pageCall_run _ _ _ v) by done.
  by destruct (clientCall _ _ _ _ _) as [[r|x] w'].
Qed.

(** Constructing a page under a handle with a client and a scope returns, and
    leaves the heap alone. *)
Lemma page_returns b T w v k sc :
  heap w !! b = Some v -> client v = Some k -> ctx v = Some sc ->
  exists e w', page b T w =
                 (Return ({| pctx := Some sc; browser := b; TargetID := T |}, e), w') /\
               heap w' = heap w.
Proof.
  intros Hb Hk Hc. rewrite (page_run _ _ _ _ Hb), Hk, Hc.
  destruct (clientCall_returns k sc (Some T) attachToTarget
              (slept (slowmotion v) w)) as (r & w' & -> & Hh).
  by eexists _, _.
Qed.

(** A page that was constructed without error: its fields, and the one
    exchange that attached it. *)
Lemma page_ok b T w p w2 :
  page b T w = (Return (p, None), w2) ->
  exists v k sc ra,
    heap w !! b = Some v /\ client v = Some k /\ ctx v = Some sc /\
    p = {| pctx := Some sc; browser := b; TargetID := T |} /\
    heap w2 = heap w /\
    wire w2 = wire w ++ [(ClientCall k (Some T) attachToTarget, Ok ra)].
Proof.
  intros Hp. destruct (heap w !! b) as [v|] eqn:Hb.
  2:{ unfold page, bind, load in Hp. by rewrite Hb in Hp. }
  rewrite (page_run _ _ _ _ Hb) in Hp.
  destruct (client v) as [k|] eqn:Hk, (ctx v) as [sc|] eqn:Hc;
    try discriminate.
  destruct (clientCall _ _ _ _ _) as [[[j e]|x] w'] eqn:Hcall; [|discriminate].
  simpl in Hp. injection Hp as <- -> <-.
  apply clientCall_ok in Hcall as (_ & Hrep & ->).
  exists v, k, sc, j. rewrite answered_wire, Hrep. done.
Qed.

End Calls.

(** ** Pages *)
Section Pages.
Context {E : Type} `{!Remote E}.
Implicit Types (w : World E) (v : Browser) (p : Page).

Lemma Call_ok b req w j w1 :
  Call b req w = (Return (j, None), w1) ->
  exists v k sc,
    heap w !! b = Some v /\ client v = Some k /\ ctx v = Some sc /\
    heap w1 = heap w /\
    wire w1 = wire w ++ [(ClientCall k None req, Ok j)].
Proof.
  intros Hcall. destruct (Call_inv _ _ _ _ _ Hcall) as (v & k & sc & Hb & Hk & Hc).
  rewrite (Call_run _ _ _ _ Hb), Hk, Hc in Hcall.
  apply clientCall_ok in Hcall as (_ & Hrep & ->).
  exists v, k, sc. rewrite answered_wire, Hrep. done.
Qed.

Lemma Call_err b req w j e w1 :
  Call b req w = (Return (j, Some e), w1) ->
  exists v k,
    heap w !! b = Some v /\ client v = Some k /\ heap w1 = heap w /\
    (wire w1 = wire w \/ wire w1 = wire w ++ [(ClientCall k None req, Fail e)]).
Proof.
  intros Hcall. destruct (Call_inv _ _ _ _ _ Hcall) as (v & k & sc & Hb & Hk & Hc).
  rewrite (Call_run _ _ _ _ Hb), Hk, Hc in Hcall. exists v, k.
  apply clientCall_err in Hcall as [(_ & _ & ->)|(_ & Hrep & ->)].
  - auto.
  - rewrite answered_wire, Hrep. auto.
Qed.

Lemma NavigateE_ok p url w w3 v k :
  heap w !! browser p = Some v -> client v = Some k ->
  NavigateE p url w = (Return None, w3) ->
  exists rn,
    wire w3 = wire w ++ [(ClientCall k (Some (TargetID p)) (navigate url), Ok rn)].
Proof.
  intros Hb Hk. rewrite (NavigateE_run _ _ _ _ Hb), Hk.
  destruct (pctx p) as [sc|]; [|discriminate].
  destruct (clientCall _ _ _ _ _) as [[[rn e]|x] w'] eqn:Hcall; [|discriminate].
  simpl. intros [= -> <-].
  apply clientCall_ok in Hcall as (_ & Hrep & ->).
  exists rn. by rewrite answered_wire, Hrep.
Qed.

Lemma NavigateE_err p url w e w3 v k :
  heap w !! browser p = Some v -> client v = Some k ->
  NavigateE p url w = (Return (Some e), w3) ->
  wire w3 = wire w \/
  wire w3 = wire w ++ [(ClientCall k (Some (TargetID p)) (navigate url), Fail e)].
Proof.
  intros Hb Hk. rewrite (NavigateE_run _ _ _ _ Hb), Hk.
  destruct (pctx p) as [sc|]; [|discriminate].
  destruct (clientCall _ _ _ _ _) as [[[rn e']|x] w'] eqn:Hcall; [|discriminate].
  simpl. intros [= -> <-].
  apply clientCall_err in Hcall as [(_ & _ & ->)|(_ & Hrep & ->)].
  - auto.
  - rewrite answered_wire, Hrep. auto.
Qed.

(** The loop of PagesE returns under a handle with a client and a scope:
    either the error of a page whose construction failed, or the pages of the
    page-type targets, appended in order. *)
Lemma pagesLoop_spec b v k sc targets :
  forall acc w,
    heap w !! b = Some v -> client v = Some k -> ctx v = Some sc ->
    exists r w',
      pagesLoop b targets acc w = (Return r, w') /\ heap w' = heap w /\
      ((exists e t w2 w3 p,
           r = (None, Some e) /\ In t (List.filter isPageTarget targets) /\
           page b (targetIdOf t) w2 = (Return (p, Some e), w3)) \/
       r = (Some (acc ++ map (fun t => {| pctx := Some sc; browser := b;
                                          TargetID := targetIdOf t |})
                             (List.filter isPageTarget targets)), None)).
Proof.
  induction targets as [|t rest IH]; intros acc w Hb Hk Hc.
  - exists (Some acc, None), w. simpl. rewrite app_nil_r. auto.
  - simpl. destruct (isPageTarget t) eqn:Ht; simpl.
    + destruct (page_returns b (targetIdOf t) w v k sc Hb Hk Hc)
        as (e & w' & Hp & Hh).
      unfold bind. rewrite Hp. destruct e as [e|]; simpl.
      * exists (None, Some e), w'. split; [done|]. split; [done|]. left.
        exists e, t, w, w', {| pctx := Some sc; browser := b;
                               TargetID := targetIdOf t |}.
        split; [done|]. split; [by left|done].
      * destruct (IH (acc ++ [{| pctx := Some sc; browser := b;
                                 TargetID := targetIdOf t |}]) w')
          as (r & w'' & Hl & Hh' & Hr); [by rewrite Hh|done|done|].
        exists r, w''. split; [done|]. split; [congruence|].
        destruct Hr as [(e & t' & w2 & w3 & p & -> & Hin & Hp')| ->].
        -- left. exists e, t', w2, w3, p. split; [done|]. split; [by right|done].
        -- right. by rewrite <- app_assoc.
    + destruct (IH acc w Hb Hk Hc) as (r & w'' & Hl & Hh' & Hr).
      by exists r, w''.
Qed.

(** C3 (as amended).  When the create-target call is answered with target
    [T], the page is constructed without error and the navigate call is
    accepted, [PageE] returns that page, whose [TargetID] is [T], with a nil
    error, and what it put on the wire is one [Target.createTarget] call, the
    exchange that attached the page, and one navigate call for [url]
    addressed to [T], in this order. *)
Theorem PageE_create_then_navigate b url w T j w1 p w2 w3 :
  Call b createTarget w = (Return (j, None), w1) ->
  targetIdOf j = T ->
  page b T w1 = (Return (p, None), w2) ->
  NavigateE p url w2 = (Return None, w3) ->
  PageE b url w = (Return (Some p, None), w3) /\
  TargetID p = T /\
  exists k ra rn,
    wire w3 = wire w ++
      [(ClientCall k None createTarget, Ok j);
       (ClientCall k (Some T) attachToTarget, Ok ra);
       (ClientCall k (Some T) (navigate url), Ok rn)].
Proof.
  intros Hcreate HT Hpage Hnav. split.
  { unfold PageE, bind. rewrite Hcreate. simpl. rewrite HT, Hpage. simpl.
    by rewrite Hnav. }
  apply Call_ok in Hcreate as (v & k & sc & Hb & Hk & Hc & Hh1 & Hw1).
  apply page_ok in Hpage
    as (v' & k' & sc' & ra & Hb' & Hk' & Hc' & -> & Hh2 & Hw2).
  rewrite Hh1, Hb in Hb'. injection Hb' as <-.
  rewrite Hk in Hk'. injection Hk' as <-.
  split; [done|].
  apply (NavigateE_ok _ _ _ _ v k) in Hnav as (rn & Hw3);
    [|by rewrite Hh2, Hh1|done].
  exists k, ra, rn. rewrite Hw3, Hw2, Hw1. simpl.
  by rewrite <- !app_assoc.
Qed.

(** The worlds behind a call that succeeded, a page that was constructed
    and a navigation that failed. *)
Lemma Call_ok_world b req w j w1 :
  Call b req w = (Return (j, None), w1) ->
  exists v k sc,
    heap w !! b = Some v /\ client v = Some k /\ ctx v = Some sc /\
    isDone (slept (slowmotion v) w) sc = false /\
    snd (respond (remote w) (ClientCall k None req)) = Ok j /\
    w1 = answered (ClientCall k None req) (slept (slowmotion v) w).
Proof.
  intros Hcall. destruct (Call_inv _ _ _ _ _ Hcall) as (v & k & sc & Hb & Hk & Hc).
  rewrite (Call_run _ _ _ _ Hb), Hk, Hc in Hcall.
  apply clientCall_ok in Hcall as (Hd & Hrep & ->).
  by exists v, k, sc.
Qed.

Lemma page_ok_world b T w p w2 v :
  heap w !! b = Some v ->
  page b T w = (Return (p, None), w2) ->
  exists k sc ra,
    client v = Some k /\ ctx v = Some sc /\
    p = {| pctx := Some sc; browser := b; TargetID := T |} /\
    snd (respond (remote w) (ClientCall k (Some T) attachToTarget)) = Ok ra /\
    w2 = answered (ClientCall k (Some T) attachToTarget) (slept (slowmotion v) w).
Proof.
  intros Hb Hp. rewrite (page_run _ _ _ _ Hb) in Hp.
  destruct (client v) as [k|] eqn:Hk, (ctx v) as [sc|] eqn:Hc;
    try discriminate.
  destruct (clientCall _ _ _ _ _) as [[[ra e]|x] w'] eqn:Hcall; [|discriminate].
  simpl in Hp. injection Hp as <- -> <-.
  apply clientCall_ok in Hcall as (_ & Hrep & ->).
  by exists k, sc, ra.
Qed.

Lemma NavigateE_err_world p url w e w3 v k sc :
  heap w !! browser p = Some v -> client v = Some k -> pctx p = Some sc ->
  NavigateE p url w = (Return (Some e), w3) ->
  w3 = slept (slowmotion v) w \/
  w3 = answered (ClientCall k (Some (TargetID p)) (navigate url))
         (slept (slowmotion v) w).
Proof.
  intros Hb Hk Hc. rewrite (NavigateE_run _ _ _ _ Hb), Hk, Hc.
  destruct (clientCall _ _ _ _ _) as [[[rn e']|x] w'] eqn:Hcall; [|discriminate].
  simpl. intros [= -> <-].
  apply clientCall_err in Hcall as [(_ & _ & ->)|(_ & _ & ->)]; auto.
Qed.

(** The loop of PagesE, exchange by exchange: the pages of the page-type
    targets are attached one after the other; the loop stops at the first
    whose construction fails, either because the endpoint rejected the
    attach call or because the scope was done before it was sent. *)
Lemma pagesLoop_run b v k sc targets :
  forall acc w,
    heap w !! b = Some v -> client v = Some k -> ctx v = Some sc ->
    exists r w',
      pagesLoop b targets acc w = (Return r, w') /\ heap w' = heap w /\
      ((exists e pre t post rs w2 p,
           r = (None, Some e) /\
           List.filter isPageTarget targets = pre ++ t :: post /\
           length rs = length pre /\
           wire w2 = wire w ++ attachExchanges k pre rs /\
           page b (targetIdOf t) w2 = (Return (p, Some e), w') /\
           ((e = ContextErr /\ isDone w' sc = true /\ wire w' = wire w2) \/
            wire w' = wire w2 ++
              [(ClientCall k (Some (targetIdOf t)) attachToTarget, Fail e)])) \/
       (exists rs,
           r = (Some (acc ++ map (fun t => {| pctx := Some sc; browser := b;
                                              TargetID := targetIdOf t |})
                                 (List.filter isPageTarget targets)), None) /\
           length rs = length (List.filter isPageTarget targets) /\
           wire w' = wire w ++
             attachExchanges k (List.filter isPageTarget targets) rs)).
Proof.
  induction targets as [|t rest IH]; intros acc w Hb Hk Hc.
  - exists (Some acc, None), w. split; [done|]. split; [done|]. right.
    exists []. simpl. by rewrite !app_nil_r.
  - simpl. destruct (isPageTarget t) eqn:Ht; simpl.
    2:{ destruct (IH acc w Hb Hk Hc) as (r & w'' & Hl & Hh' & Hr).
        by exists r, w''. }
    pose proof (page_run b (targetIdOf t) w v Hb) as Hp.
    rewrite Hk, Hc, clientCall_run in Hp. unfold bind.
    destruct (isDone (slept (slowmotion v) w) sc) eqn:Hd.
    { rewrite Hp. simpl. eexists _, _. split; [reflexivity|]. split; [done|].
      left. exists ContextErr, [], t, (List.filter isPageTarget rest), [], w.
      eexists. split; [done|]. split; [done|]. split; [done|].
      split; [by rewrite app_nil_r|]. split; [exact Hp|]. left. done. }
    destruct (snd (respond (remote (slept (slowmotion v) w))
                     (ClientCall k (Some (targetIdOf t)) attachToTarget)))
      as [ra|e] eqn:Hrep.
    2:{ rewrite Hp. simpl. eexists _, _. split; [reflexivity|]. split; [done|].
        left. exists e, [], t, (List.filter isPageTarget rest), [], w.
        eexists. split; [done|]. split; [done|]. split; [done|].
        split; [by rewrite app_nil_r|]. split; [exact Hp|]. right.
        by rewrite answered_wire, Hrep. }
    rewrite Hp. simpl.
    set (w1 := answered (ClientCall k (Some (targetIdOf t)) attachToTarget)
                 (slept (slowmotion v) w)) in *.
    assert (wire w1 = wire w ++
              [(ClientCall k (Some (targetIdOf t)) attachToTarget, Ok ra)])
      as Hw1 by (unfold w1; by rewrite answered_wire, Hrep).
    destruct (IH (acc ++ [{| pctx := Some sc; browser := b;
                             TargetID := targetIdOf t |}]) w1)
      as (r & w'' & Hl & Hh' & Hr); [done|done|done|].
    exists r, w''. split; [done|]. split; [done|].
    destruct Hr as [(e & pre & t' & post & rs & w2 & p & -> & Hlist & Hlen &
                     Hw2 & Hpage & Htail)|(rs & -> & Hlen & Hw)].
    + left. exists e, (t :: pre), t', post, (ra :: rs), w2, p.
      split; [done|]. split; [by rewrite Hlist|]. split; [by simpl; rewrite Hlen|].
      split; [|done]. rewrite Hw2, Hw1, <- app_assoc. done.
    + right. exists (ra :: rs). split; [by rewrite <- app_assoc|].
      split; [by simpl; rewrite Hlen|].
      rewrite Hw, Hw1, <- app_assoc. done.
Qed.

(** Under a scope that is never done and in front of an endpoint that
    answers attach calls, the loop builds every page. *)
Lemma pagesLoop_succeeds (ok : E -> Prop) b v k sc targets :
  AnswersPages ok ->
  forall acc w,
    heap w !! b = Some v -> client v = Some k -> ctx v = Some sc ->
    (forall t', ctxDone (cancelled w) t' sc = false) -> ok (remote w) ->
    exists w',
      pagesLoop b targets acc w =
        (Return (Some (acc ++ map (fun t => {| pctx := Some sc; browser := b;
                                               TargetID := targetIdOf t |})
                                  (List.filter isPageTarget targets)), None), w').
Proof.
  intros Hans. induction targets as [|t rest IH]; intros acc w Hb Hk Hc Hlive Hok.
  - exists w. simpl. by rewrite app_nil_r.
  - simpl. destruct (isPageTarget t) eqn:Ht; simpl; [|by apply IH].
    pose proof (page_run b (targetIdOf t) w v Hb) as Hp.
    rewrite Hk, Hc, clientCall_run in Hp. unfold bind.
    assert (isDone (slept (slowmotion v) w) sc = false) as Hd by apply Hlive.
    rewrite Hd in Hp.
    destruct (attach_answered ok Hans (remote w) k (targetIdOf t) Hok)
      as (ra & Hrep).
    change (remote (slept (slowmotion v) w)) with (remote w) in Hp.
    rewrite Hrep in Hp. rewrite Hp. simpl.
    destruct (IH (acc ++ [{| pctx := Some sc; browser := b;
                             TargetID := targetIdOf t |}])
                 (answered (ClientCall k (Some (targetIdOf t)) attachToTarget)
                    (slept (slowmotion v) w)))
      as (w' & Hl); [done|done|done|exact Hlive| |].
    { apply (ok_kept ok Hans (remote w) _ Hok). }
    exists w'. by rewrite Hl, <- app_assoc.
Qed.


(** C6 (as amended).  When the [Target.getTargets] call succeeds, [PagesE]
    attaches the pages of the listed targets whose type is "page" one after
    the other, in the order listed, and returns: either nil and the error
    with which the construction of the page of one of them failed (the
    attach exchanges of the ones before it are on the wire, followed by the
    rejected attach call, or by nothing when the scope was done), or, with a
    nil error, one page per listed target whose type is "page", in the order
    listed and for no other target, each bound to [b], with exactly their
    attach exchanges on the wire. *)
Theorem PagesE_lists_pages b w j w1 :
  Call b getTargets w = (Return (j, None), w1) ->
  exists r w' v k sc,
    PagesE b w = (Return r, w') /\
    heap w !! b = Some v /\ client v = Some k /\ ctx v = Some sc /\
    ((exists e pre t post rs w2 p,
         r = (None, Some e) /\
         List.filter isPageTarget (Array (Get "targetInfos" j)) =
           pre ++ t :: post /\
         length rs = length pre /\
         wire w2 = wire w1 ++ attachExchanges k pre rs /\
         page b (targetIdOf t) w2 = (Return (p, Some e), w') /\
         ((e = ContextErr /\ isDone w' sc = true /\ wire w' = wire w2) \/
          wire w' = wire w2 ++
            [(ClientCall k (Some (targetIdOf t)) attachToTarget, Fail e)])) \/
     (exists pages rs,
         r = (Some pages, None) /\
         map TargetID pages =
           map targetIdOf (List.filter isPageTarget (Array (Get "targetInfos" j))) /\
         Forall (fun p => browser p = b) pages /\
         length rs = length pages /\
         wire w' = wire w1 ++
           attachExchanges k
             (List.filter isPageTarget (Array (Get "targetInfos" j))) rs)).
Proof.
  intros Hlist. unfold PagesE, bind. rewrite Hlist. simpl.
  apply Call_ok in Hlist as (v & k & sc & Hb & Hk & Hc & Hh1 & _).
  destruct (pagesLoop_run b v k sc (Array (Get "targetInfos" j)) [] w1)
    as (r & w' & Hl & _ & Hr); [by rewrite Hh1|done|done|].
  exists r, w', v, k, sc. split; [done|]. split; [done|]. split; [done|].
  split; [done|].
  destruct Hr as [Hr|(rs & -> & Hlen & Hw)]; [by left|right].
  eexists _, rs. split; [reflexivity|]. simpl. split; [|split; [|split]].
  - by rewrite map_map.
  - apply Forall_forall. intros p Hin. apply list_elem_of_In in Hin.
    apply in_map_iff in Hin as (t & <- & _). done.
  - by rewrite length_map.
  - done.
Qed.

End Pages.

(** ** Connect and Close *)
Section Session.
Context {E : Type} `{!Remote E}.
Implicit Types (w : World E) (v : Browser).

Lemma initEvents_run b w v k sc :
  heap w !! b = Some v -> client v = Some k -> ctx v = Some sc ->
  initEvents b w =
    let w0 := setHeap (<[b := withEvent (Some (nextObs w)) v]> (heap w))
                      (setNextObs (S (nextObs w)) w) in
    let ws := slept (slowmotion v) w0 in
    if isDone ws sc then (Return (Some ContextErr), ws)
    else (Return (snd (replyResult
                         (snd (respond (remote w)
                                 (ClientCall k None setDiscoverTargets))))),
          answered (ClientCall k None setDiscoverTargets) ws).
Proof.
  intros Hb Hk Hc. pose proof (lookup_lt_Some _ _ _ Hb) as Hlt.
  unfold initEvents, bind, load, NewObservable, store. rewrite Hb. simpl.
  rewrite Hb.
  rewrite (Call_run _ _ _ (withEvent (Some (nextObs w)) v))
    by (simpl; by apply list_lookup_insert_eq).
  simpl. rewrite Hk, Hc, clientCall_run.
  by destruct (isDone _ sc).
Qed.

Lemma connected_done k u done done' d r :
  done = done' -> connected k u done d r -> connected k u done' d r.
Proof. by intros ->. Qed.

Lemma connectClient_spec b w v sc :
  heap w !! b = Some v -> ctx v = Some sc ->
  exists r w' d v',
    connectClient b w = (Return r, w') /\
    wire w' = wire w ++ d /\
    heap w' !! b = Some v' /\ ctx v' = Some sc /\ close v' = close v /\
    connected (nextClient w) (controlURL v) (isDone w' sc) d r /\
    (r = None ->
     v' = withEvent (Some (nextObs w)) (withClient (Some (nextClient w)) v)).
Proof.
  intros Hb Hc. pose proof (lookup_lt_Some _ _ _ Hb) as Hlt.
  unfold connectClient, bind, load. rewrite Hb.
  unfold cdpNew, bind, exchange.
  destruct (snd (respond (remote w) (Dial (controlURL v)))) as [r|e] eqn:Hdial.
  2:{ simpl. eexists _, _, _, v. split; [reflexivity|].
      rewrite answered_wire, Hdial.
      split; [reflexivity|]. split; [done|]. split; [done|]. split; [done|].
      split; [constructor|discriminate]. }
  simpl. unfold store at 1. simpl. rewrite Hb.
  rewrite (initEvents_run _ _ (withClient (Some (nextClient w)) v)
             (nextClient w) sc);
    [|simpl; by apply list_lookup_insert_eq|done|done].
  simpl.
  match goal with |- context [isDone ?ws sc] =>
    destruct (isDone ws sc) eqn:Hdone end.
  { eexists _, _, [_], _. split; [reflexivity|]. rewrite slept_wire. simpl.
    rewrite Hdial. split; [reflexivity|].
    rewrite list_insert_insert_eq.
    split; [by apply list_lookup_insert_eq|]. split; [done|]. split; [done|].
    split; [|discriminate].
    apply (connected_done _ _ true); [symmetry; exact Hdone|constructor]. }
  destruct (snd (respond _ (ClientCall _ _ _))) as [r'|e] eqn:Hdisc.
  - eexists _, _, [_; _], _. split; [reflexivity|].
    rewrite answered_wire, slept_wire. simpl. rewrite Hdial, Hdisc.
    split; [by rewrite <- app_assoc|].
    rewrite list_insert_insert_eq.
    split; [by apply list_lookup_insert_eq|]. split; [done|]. split; [done|].
    split; [|done].
    apply (connected_done _ _ false); [symmetry; exact Hdone|constructor].
  - eexists _, _, [_; _], _. split; [reflexivity|].
    rewrite answered_wire, slept_wire. simpl. rewrite Hdial, Hdisc.
    split; [by rewrite <- app_assoc|].
    rewrite list_insert_insert_eq.
    split; [by apply list_lookup_insert_eq|]. split; [done|]. split; [done|].
    split; [|discriminate].
    apply (connected_done _ _ false); [symmetry; exact Hdone|constructor].
Qed.

Lemma resolveAndConnect_spec b w v sc :
  heap w !! b = Some v -> ctx v = Some sc ->
  exists r w' d v',
    resolveAndConnect b w = (Return r, w') /\
    wire w' = wire w ++ d /\
    heap w' !! b = Some v' /\ ctx v' = Some sc /\ close v' = close v /\
    connectRun (controlURL v) (nextClient w) (isDone w' sc) d r /\
    (r = None ->
     client v' = Some (nextClient w) /\ event v' = Some (nextObs w)).
Proof.
  intros Hb Hc. pose proof (lookup_lt_Some _ _ _ Hb) as Hlt.
  unfold resolveAndConnect, bind, load, exchange. rewrite Hb.
  destruct (snd (respond (remote w) (GetWebSocketDebuggerURL (controlURL v))))
    as [r|e] eqn:Hprobe.
  - destruct (connectClient_spec b
                (answered (GetWebSocketDebuggerURL (controlURL v)) w) v sc)
      as (res & w' & d & v' & Hrun & Hw & Hb' & Hc' & Hcl' & Hd & Hok);
      [done|done|].
    exists res, w', ((GetWebSocketDebuggerURL (controlURL v), Ok r) :: d), v'.
    split; [done|]. rewrite Hw, answered_wire, Hprobe.
    split; [by rewrite <- app_assoc|].
    split; [done|]. split; [done|]. split; [done|]. split.
    + by apply (connectRun_resolved _ _ _ [_] (controlURL v)); [constructor|].
    + intros Hn. by rewrite (Hok Hn).
  - destruct (snd (respond _ LaunchE)) as [u|e'] eqn:Hlaunch.
    + unfold store. simpl. rewrite Hb.
      destruct (connectClient_spec b
                  (setHeap (<[b:=withControlURL (String u) v]> (heap w))
                     (answered LaunchE
                        (answered (GetWebSocketDebuggerURL (controlURL v)) w)))
                  (withControlURL (String u) v) sc)
        as (res & w' & d & v' & Hrun & Hw & Hb' & Hc' & Hcl' & Hd & Hok);
        [simpl; by apply list_lookup_insert_eq|done|].
      exists res, w',
        ((GetWebSocketDebuggerURL (controlURL v), Fail e) :: (LaunchE, Ok u) :: d),
        v'.
      split; [done|]. rewrite Hw. simpl. simpl in Hlaunch.
      rewrite Hprobe, Hlaunch.
      split; [by rewrite <- !app_assoc|].
      split; [done|]. split; [done|]. split; [done|]. split.
      * by apply (connectRun_resolved _ _ _ [_; _] (String u)); [constructor|].
      * intros Hn. by rewrite (Hok Hn).
    + eexists _, _, [_; _], v. split; [reflexivity|]. simpl. simpl in Hlaunch.
      rewrite Hprobe, Hlaunch. split; [by rewrite <- app_assoc|].
      split; [done|]. split; [done|]. split; [done|].
      split; [|discriminate]. apply connectRun_unresolved. constructor.
Qed.

(** A run of Connect holds at most one discovery call: exactly one when it
    succeeded, exactly one when it got through the dial under a scope that
    is live, and none when no dial succeeded. *)
Lemma connectRun_discoveryCalls url k done d r :
  connectRun url k done d r ->
  (discoveryCalls d <= 1)%nat /\
  (r = None -> discoveryCalls d = 1%nat) /\
  (done = false -> (exists u j, In (Dial u, Ok j) d) ->
   discoveryCalls d = 1%nat) /\
  ((forall u j, ~ In (Dial u, Ok j) d) -> discoveryCalls d = 0%nat).
Proof.
  intros Hrun.
  destruct Hrun as [done pre e Hres|done pre u d r Hres Hconn].
  - inversion Hres; subst. unfold discoveryCalls. simpl.
    repeat split; intros; try done; try lia. naive_solver.
  - inversion Hres; subst; inversion Hconn; subst; unfold discoveryCalls;
      simpl; repeat split; intros; try done; try lia; naive_solver.
Qed.


End Session.

(** ** Close *)
Section Closing.
Context {E : Type} `{!Remote E}.
Implicit Types (w : World E) (v : Browser).

Lemma CloseE_run b w j w1 v :
  Call b browserClose w = (Return (j, None), w1) -> heap w1 !! b = Some v ->
  CloseE b w =
    (Return None, match close v with Some f => cancel f w1 | None => w1 end).
Proof.
  intros Hcall Hb. unfold CloseE, bind, load. rewrite Hcall. simpl.
  rewrite Hb. by destruct (close v).
Qed.

(** C5 (as amended).  [CloseE] first issues the [Browser.close] call.  When
    the call succeeds it then calls the handle's [close] function if there is
    one, which ends the root scope that function belongs to and every scope
    derived from it, and returns nil; a handle without a [close] function
    cancels nothing.  When the call fails, [CloseE] returns that very error
    and the world is as the call left it. *)
Theorem CloseE_steps b w :
  (forall j w1,
      Call b browserClose w = (Return (j, None), w1) ->
      exists v k,
        heap w !! b = Some v /\
        wire w1 = wire w ++ [(ClientCall k None browserClose, Ok j)] /\
        match close v with
        | Some f =>
            CloseE b w = (Return None, cancel f w1) /\
            wire (cancel f w1) = wire w1 /\
            (forall p c, derivedFrom (CancelCtx f p) c ->
                         isDone (cancel f w1) c = true)
        | None => CloseE b w = (Return None, w1)
        end) /\
  (forall j e w1,
      Call b browserClose w = (Return (j, Some e), w1) ->
      CloseE b w = (Return (Some e), w1)).
Proof.
  split.
  - intros j w1 Hcall.
    destruct (Call_ok _ _ _ _ _ Hcall) as (v & k & sc & Hb & Hk & Hc & Hh1 & Hw1).
    exists v, k. split; [done|]. split; [done|].
    rewrite (CloseE_run _ _ _ _ v Hcall) by (by rewrite Hh1).
    destruct (close v) as [f|]; [|done].
    split; [done|]. split; [done|]. intros p c Hd.
    apply (ctxDone_derivedFrom _ _ _ _ Hd). apply isDone_cancel_own.
  - intros j e w1 Hcall. unfold CloseE, bind. by rewrite Hcall.
Qed.

End Closing.

(** ** Waiting for events *)
Section Events.
Context {E : Type} `{!Remote E}.
Implicit Types (w : World E) (v : Browser) (x : Waiter).

Lemma waiters_Publish o e w h :
  waiters (Publish o e w) !! h = receive w o e <$> waiters w !! h.
Proof. simpl. apply list_lookup_fmap. Qed.

Lemma waiters_cancel f w h :
  waiters (cancel f w) !! h =
    settleOne (setCancelled ({[f]} ∪ cancelled w) w) <$> waiters w !! h.
Proof. simpl. apply list_lookup_fmap. Qed.

Lemma isDone_publishAll evs : forall w c, isDone (publishAll evs w) c = isDone w c.
Proof. induction evs as [|oe evs IH]; intros w c; [done|]. simpl. by rewrite IH. Qed.

Lemma receive_returned w o e x : wreturned x = true -> receive w o e x = x.
Proof. unfold receive. by intros ->. Qed.

Lemma nilObservable_Some x o : wobs x = Some o -> nilObservable x = false.
Proof. unfold nilObservable. by intros ->. Qed.

Lemma subscribed_Some x o o' : wobs x = Some o -> subscribed x o' = Nat.eqb o o'.
Proof. unfold subscribed. by intros ->. Qed.

Lemma subscribed_eq x o : subscribed x o = true -> wobs x = Some o.
Proof.
  unfold subscribed. destruct (wobs x) as [o'|]; [|done].
  by intros ->%Nat.eqb_eq.
Qed.

(** A goroutine that died on a nil observable is out of reach of events and
    of cancellation. *)
Lemma receive_nil w o e x : nilObservable x = true -> receive w o e x = x.
Proof. unfold receive. intros ->. by rewrite orb_true_r. Qed.

Lemma settleOne_nil w x : nilObservable x = true -> settleOne w x = x.
Proof. unfold settleOne. intros ->. by rewrite orb_true_r. Qed.

Lemma receive_running w o e x :
  wreturned x = false -> nilObservable x = false ->
  receive w o e x =
    if isDone w (wctx x) then untilDone x
    else if subscribed x o then untilEvent e x else x.
Proof. unfold receive. by intros -> ->. Qed.

Lemma settleOne_running w x :
  wreturned x = false -> nilObservable x = false ->
  settleOne w x = if isDone w (wctx x) then untilDone x else x.
Proof. unfold settleOne. by intros -> ->. Qed.

Ltac running := first [done | by eapply nilObservable_Some].

(** A goroutine that has returned is out of reach of later events. *)
Lemma publishAll_returned evs :
  forall w h x, waiters w !! h = Some x -> wreturned x = true ->
                waiters (publishAll evs w) !! h = Some x.
Proof.
  induction evs as [|[o e] evs IH]; intros w h x Hx Hr; [done|].
  simpl. apply IH; [|done]. rewrite waiters_Publish, Hx. simpl.
  by rewrite receive_returned.
Qed.

(** While no event on its observable passes its filter, a goroutine either
    is still waiting or has returned the cancellation error. *)
Lemma publishAll_unmatched evs :
  forall w h x,
    waiters w !! h = Some x ->
    (forall oe, In oe evs -> wobs x = Some (fst oe) ->
                wfilter x (snd oe) = false) ->
    (wreturned x = true -> werr x = Some ContextErr) ->
    exists x', waiters (publishAll evs w) !! h = Some x' /\
               wctx x' = wctx x /\ wobs x' = wobs x /\
               (wreturned x' = true -> werr x' = Some ContextErr).
Proof.
  induction evs as [|[o e] evs IH]; intros w h x Hx Hno Herr.
  { by exists x. }
  simpl.
  destruct (IH (Publish o e w) h (receive w o e x))
    as (x' & Hx' & Hc' & Ho' & He').
  - rewrite waiters_Publish, Hx. done.
  - intros oe Hin Ho. unfold receive in *.
    destruct (wreturned x || nilObservable x); [by apply Hno; [right|]|].
    destruct (isDone w (wctx x)); [by apply Hno; [right|]|].
    destruct (subscribed x o); by apply Hno; [right|].
  - unfold receive. destruct (wreturned x) eqn:Hr; [by intros _; apply Herr|].
    simpl. destruct (nilObservable x); [by rewrite Hr|].
    destruct (isDone w (wctx x)); [done|].
    destruct (subscribed x o) eqn:Ho; [|by rewrite Hr].
    simpl. apply subscribed_eq in Ho.
    pose proof (Hno (o, e) (or_introl eq_refl) Ho) as Hf.
    simpl in Hf. by rewrite Hf.
  - exists x'. split; [done|]. rewrite Hc', Ho'.
    unfold receive. destruct (wreturned x || nilObservable x); [done|].
    destruct (isDone w (wctx x)); [done|]. by destruct (subscribed x o).
Qed.

Lemma last_cons_default {A} (a d : A) l : List.last (a :: l) d = List.last l a.
Proof.
  revert a d. induction l as [|b l IH]; intros a d; [done|].
  change (List.last (a :: b :: l) d) with (List.last (b :: l) d).
  by rewrite (IH b d), (IH b a).
Qed.

(** A waiting goroutine whose scope stays live keeps waiting through events
    that do not pass its filter, and [event] holds the last of them. *)
Lemma publishAll_waiting evs :
  forall w h x o,
    waiters w !! h = Some x -> wreturned x = false -> wobs x = Some o ->
    isDone w (wctx x) = false ->
    Forall (fun e => wfilter x e = false) evs ->
    exists x', waiters (publishAll (map (pair o) evs) w) !! h = Some x' /\
               wreturned x' = false /\ wctx x' = wctx x /\
               wfilter x' = wfilter x /\ wobs x' = wobs x /\
               wevent x' = List.last (map Some evs) (wevent x).
Proof.
  induction evs as [|e evs IH]; intros w h x o Hx Hr Ho Hd Hall.
  { by exists x. }
  apply Forall_cons in Hall as [He Hall]. simpl.
  destruct (IH (Publish o e w) h (untilEvent e x) o)
    as (x' & Hx' & Hr' & Hc' & Hf' & Ho' & He'); try done.
  - rewrite waiters_Publish, Hx. simpl.
    rewrite receive_running, Hd, (subscribed_Some x o o Ho), Nat.eqb_refl;
      [done..|by apply nilObservable_Some with o].
  - exists x'. split; [done|]. repeat split; try done.
    rewrite He'. simpl wevent.
    by rewrite <- (last_cons_default (Some e) (wevent x)).
Qed.

Lemma WaitEventE_run b filter w v c :
  heap w !! b = Some v -> ctx v = Some c ->
  exists w1,
    WaitEventE b filter w = (Return (length (waiters w), nextCtx w), w1) /\
    cancelled w1 = cancelled w /\ now w1 = now w /\
    waiters w1 !! length (waiters w) =
      Some (settleOne w
              {| wobs := event v; wctx := CancelCtx (nextCtx w) c;
                 wfilter := filter;
                 wevent := None; werr := None; wreturned := false |}).
Proof.
  intros Hb Hc. unfold WaitEventE, bind, load, WithCancel.
  rewrite Hb, Hc. simpl. eexists. split; [reflexivity|].
  simpl. split; [done|]. split; [done|].
  rewrite list_lookup_fmap, lookup_app_r, Nat.sub_diag by done. done.
Qed.

(** A waiting goroutine whose scope stays live keeps waiting, on the same
    observable and with the same filter, through events of which none on its
    observable passes the filter. *)
Lemma publishAll_pending evs :
  forall w h x o,
    waiters w !! h = Some x -> wreturned x = false -> wobs x = Some o ->
    isDone w (wctx x) = false ->
    (forall oe, In oe evs -> fst oe = o -> wfilter x (snd oe) = false) ->
    exists x', waiters (publishAll evs w) !! h = Some x' /\
               wreturned x' = false /\ wobs x' = Some o /\
               wctx x' = wctx x /\ wfilter x' = wfilter x.
Proof.
  induction evs as [|[o' e] evs IH]; intros w h x o Hx Hr Ho Hd Hno.
  { by exists x. }
  simpl.
  assert (nilObservable x = false) as Hnil by (by apply nilObservable_Some with o).
  destruct (IH (Publish o' e w) h (receive w o' e x) o)
    as (x' & Hx' & Hr' & Ho' & Hc' & Hf').
  - by rewrite waiters_Publish, Hx.
  - rewrite receive_running, Hd by done.
    destruct (subscribed x o') eqn:Hs; [|done]. simpl.
    apply subscribed_eq in Hs. rewrite Ho in Hs.
    apply (Hno (o', e)); [by left|]. simpl. congruence.
  - rewrite receive_running, Hd by done. by destruct (subscribed x o').
  - rewrite receive_running, Hd by done.
    destruct (subscribed x o'); simpl; by rewrite ?Hd.
  - intros oe Hin Hoe. rewrite receive_running, Hd by done.
    destruct (subscribed x o'); simpl; (apply Hno; [by right|done]).
  - exists x'. split; [done|]. split; [done|]. split; [done|].
    rewrite Hc', Hf', receive_running, Hd by done.
    by destruct (subscribed x o').
Qed.

Lemma settleOne_started w o c filter :
  settleOne w {| wobs := Some o; wctx := c; wfilter := filter;
                 wevent := None; werr := None; wreturned := false |} =
    if isDone w c
    then {| wobs := Some o; wctx := c; wfilter := filter;
            wevent := None; werr := Some ContextErr; wreturned := true |}
    else {| wobs := Some o; wctx := c; wfilter := filter;
            wevent := None; werr := None; wreturned := false |}.
Proof. reflexivity. Qed.


(** C10.  On a handle with a live scope and an event bus: when events that
    do not pass the filter are published and then [cancel] is called, the
    accessor returns the last of those events, a non-nil event, together
    with the cancellation error; and when the next event passes the filter,
    the accessor returns that event with a nil error.  The event value is
    non-nil in both outcomes. *)
Theorem WaitEventE_cancel_returns_last_event b v c o filter w :
  heap w !! b = Some v -> ctx v = Some c -> event v = Some o ->
  isDone w c = false -> nextCtx w ∉ cancelled w ->
  exists h f w1,
    WaitEventE b filter w = (Return (h, f), w1) /\
    forall before e,
      Forall (fun e' => filter e' = false) before ->
      (filter e = false ->
       waitE h (cancel f (publishAll (map (pair o) (before ++ [e])) w1)) =
         Some (Some e, Some ContextErr)) /\
      (filter e = true ->
       waitE h (publishAll (map (pair o) (before ++ [e])) w1) =
         Some (Some e, None)).
Proof.
  intros Hb Hc Ho Hlive Hfresh.
  destruct (WaitEventE_run b filter w v c Hb Hc)
    as (w1 & Hrun & Hcan & Hnow & Hx).
  exists (length (waiters w)), (nextCtx w), w1. split; [done|].
  assert (isDone w1 (CancelCtx (nextCtx w) c) = false) as Hlive1.
  { unfold isDone in *. rewrite Hcan, Hnow. simpl. rewrite Hlive.
    by rewrite bool_decide_eq_false_2. }
  assert (isDone w (CancelCtx (nextCtx w) c) = false) as Hlive0.
  { unfold isDone in *. simpl. rewrite Hlive.
    by rewrite bool_decide_eq_false_2. }
  rewrite Ho, settleOne_started, Hlive0 in Hx.
  intros before e Hall. split; intros He.
  - destruct (publishAll_waiting (before ++ [e]) w1 _ _ o Hx)
      as (x' & Hx' & Hr' & Hc' & _ & Ho' & He'); try done.
    { apply Forall_app. split; [done|]. by apply Forall_singleton. }
    rewrite List.map_app in He'. change (map Some [e]) with [Some e] in He'.
    rewrite last_last in He'. simpl in Hx', Hc', Ho'.
    unfold waitE. rewrite waiters_cancel, Hx'. simpl.
    rewrite settleOne_running, Hc' by running.
    change (isDone _ (CancelCtx (nextCtx w) c))
      with (isDone (cancel (nextCtx w)
                      (publishAll (map (pair o) (before ++ [e])) w1))
              (CancelCtx (nextCtx w) c)).
    rewrite isDone_cancel_own. simpl. by rewrite He'.
  - destruct (publishAll_waiting before w1 _ _ o Hx)
      as (x' & Hx' & Hr' & Hc' & Hf' & Ho' & _); try done.
    simpl in Hx', Hc', Hf', Ho'.
    rewrite List.map_app. unfold publishAll. rewrite fold_left_app. simpl.
    fold (publishAll (map (pair o) before) w1).
    unfold waitE. rewrite waiters_Publish, Hx'. simpl.
    rewrite receive_running by running.
    rewrite Hc', isDone_publishAll, Hlive1, (subscribed_Some x' o o Ho').
    rewrite Nat.eqb_refl. simpl. by rewrite Hf', He.
Qed.

End Events.

(** ** Convenience forms *)
Section Convenience.
Context {E : Type} `{!Remote E}.
Implicit Types (w : World E).

(** C9.  Each convenience form is its explicit-failure form under the
    abort-on-failure wrapper: it runs the explicit form, returns that form's
    value when it succeeds and panics with its error otherwise.  [WaitEvent]
    registers with [WaitEventE] under the method-name filter, and its
    accessor wraps the accessor of [WaitEventE] in the same way. *)
Theorem convenience_is_wrapper b url name h w :
  Connect b w = abortOnFailure (withValue b (ConnectE b)) w /\
  Close b w = abortOnFailure (withValue tt (CloseE b)) w /\
  Browser_Page b url w = abortOnFailure (PageE b url) w /\
  Pages b w = abortOnFailure (PagesE b) w /\
  WaitEvent b name w = WaitEventE b (MethodFilter name) w /\
  wait h w =
    match waitE h w with
    | None => None
    | Some r => Some (fst (abortOnFailure (ret r) w))
    end.
Proof.
  repeat split.
  - unfold Connect, abortOnFailure, withValue, bind, kit_E.
    destruct (ConnectE b w) as [[[e|]|x] w']; done.
  - unfold Close, abortOnFailure, withValue, bind, kit_E.
    destruct (CloseE b w) as [[[e|]|x] w']; done.
  - unfold Browser_Page, abortOnFailure, bind, kit_E.
    destruct (PageE b url w) as [[[pg [e|]]|x] w']; done.
  - unfold Pages, abortOnFailure, bind, kit_E.
    destruct (PagesE b w) as [[[pgs [e|]]|x] w']; done.
  - unfold wait, abortOnFailure, ret.
    destruct (waitE h w) as [[ev [e|]]|]; done.
Qed.

End Convenience.

(** * Concrete runs against the stub endpoint *)

(** C1, counterexample: [Timeout] on the connected handle returns, and the
    value behind the receiver is no longer what it was. *)
Lemma Timeout_changes_receiver :
  exists n w',
    Timeout 0%nat 5 (connectedWorld stub0) = (Return n, w') /\
    heap w' !! 0%nat <> heap (connectedWorld stub0) !! 0%nat.
Proof. eexists _, _. split; [reflexivity|]. vm_compute. discriminate. Qed.

Lemma derive_copy_witness :
  exists w' f,
    Timeout 0%nat 5 (connectedWorld stub0) = (Return 1%nat, w') /\
    heap w' !! 0%nat = Some (withTimeoutCancel (Some f) connectedBrowser).
Proof.
  destruct (derive_copy 0%nat connectedBrowser (connectedWorld stub0) eq_refl)
    as [_ HT].
  destruct (HT 5 (CancelCtx 0 Background) eq_refl) as (w' & f & H1 & H2 & _).
  exists w', f. split; [exact H1|exact H2].
Defined.

(** C2, counterexample: a handle derived with [Context] under an unrelated
    scope is not cancelled when the scope of the handle it was derived from
    is. *)
Lemma Context_scope_not_linked :
  exists n w' vd cd,
    Context 0%nat (Some (CancelCtx 1 Background)) twoScopes = (Return n, w') /\
    heap w' !! n = Some vd /\ ctx vd = Some cd /\
    (exists vb, heap w' !! 0%nat = Some vb /\
                ctx vb = Some (CancelCtx 0 Background)) /\
    isDone (cancel 0%nat w') (CancelCtx 0 Background) = true /\
    isDone (cancel 0%nat w') cd = false.
Proof.
  eexists _, _, _, _. split; [reflexivity|].
  split; [reflexivity|]. split; [reflexivity|].
  split; [eexists; split; reflexivity|]. split; vm_compute; reflexivity.
Qed.

(** C3, counterexample: the endpoint answers the create-target call with
    "T1" and would accept the navigate call, but rejects attaching to the
    page; [PageE] returns a nil page and that error, and no navigate call is
    issued. *)
Lemma PageE_fails_before_navigate :
  exists j w1 w',
    Call 0%nat createTarget (connectedWorld (stubRejecting "Target.attachToTarget")) =
      (Return (j, None), w1) /\
    targetIdOf j = "T1" /\
    PageE 0%nat "https://example.com"
          (connectedWorld (stubRejecting "Target.attachToTarget")) =
      (Return (None, Some (RemoteErr "Target.attachToTarget")), w') /\
    stubRespond (remote w')
      (ClientCall 0%nat (Some "T1") (navigate "https://example.com")) =
      (remote w', Ok (JObject "" [])) /\
    map calledMethod (wire w') =
      [Some "Target.createTarget"; Some "Target.attachToTarget"].
Proof.
  eexists _, _, _. split; [vm_compute; reflexivity|].
  split; [vm_compute; reflexivity|]. split; [vm_compute; reflexivity|].
  split; vm_compute; reflexivity.
Qed.

Lemma PageE_create_then_navigate_witness :
  exists p w3,
    PageE 0%nat "https://example.com" (connectedWorld stub0) =
      (Return (Some p, None), w3) /\
    TargetID p = "T1" /\
    map calledMethod (wire w3) =
      [Some "Target.createTarget"; Some "Target.attachToTarget";
       Some "Page.navigate"].
Proof.
  pose (W := connectedWorld stub0).
  pose (w1 := snd (Call 0%nat createTarget W)).
  pose (p := {| pctx := Some (CancelCtx 0 Background); browser := 0%nat;
                TargetID := "T1" |}).
  pose (w2 := snd (page 0%nat "T1" w1)).
  pose (w3 := snd (NavigateE p "https://example.com" w2)).
  destruct (PageE_create_then_navigate 0%nat "https://example.com" W "T1"
              (JObject "" [("targetId", JString "T1")]) w1 p w2 w3)
    as (H1 & H2 & k & ra & rn & H3); try (vm_compute; reflexivity).
  exists p, w3. split; [exact H1|]. split; [exact H2|].
  rewrite H3. reflexivity.
Defined.

(** The stub endpoint keeps its targets: a created target is appended to
    the ones it holds, no call removes one, and a listing shows them all. *)
Lemma stub_keeps_targets :
  KeepsTargets (fun (s : Stub) T => In (T, "page") (targets s)).
Proof.
  split.
  - intros s k j.
    change (respond s (ClientCall k None createTarget))
      with (stubCall s createTarget).
    unfold stubCall. simpl. destruct (knows _ (rejects s)); [discriminate|].
    simpl. intros [= <-]. apply in_or_app. right. by left.
  - intros s k tg req T _ _ Hin.
    change (respond s (ClientCall k tg req)) with (stubCall s req).
    unfold stubCall. destruct (knows _ (rejects s)); [done|].
    destruct (String.eqb (Method req) "Target.createTarget");
      [simpl; apply in_or_app; by left|].
    by destruct (String.eqb (Method req) "Target.getTargets").
  - intros s k j T Hin.
    change (respond s (ClientCall k None getTargets))
      with (stubCall s getTargets).
    unfold stubCall. simpl. destruct (knows _ (rejects s)); [discriminate|].
    simpl. intros [= <-]. exists (targetInfo (T, "page")).
    split; [|by split]. simpl.
    by apply (in_map targetInfo (targets s) (T, "page")).
Qed.

(** A stub that rejects neither listings nor attach calls answers them, and
    no exchange changes what it rejects. *)
Lemma stub_answers_pages :
  AnswersPages (fun s : Stub =>
                  knows "Target.getTargets" (rejects s) = false /\
                  knows "Target.attachToTarget" (rejects s) = false).
Proof.
  split.
  - intros s a Hok.
    assert (forall req, rejects (fst (stubCall s req)) = rejects s) as Hcall.
    { intros req. unfold stubCall.
      destruct (knows (Method req) (rejects s)); [done|].
      destruct (String.eqb (Method req) "Target.createTarget"); [done|].
      by destruct (String.eqb (Method req) "Target.getTargets"). }
    destruct a as [u| |u|k tg req];
      change (respond s ?a) with (stubRespond s a); simpl.
    + done.
    + by destruct (launches s).
    + done.
    + by rewrite Hcall.
  - intros s k [Hl _].
    change (respond s (ClientCall k None getTargets))
      with (stubCall s getTargets).
    unfold stubCall. simpl. rewrite Hl. by eexists.
  - intros s k T [_ Ha].
    change (respond s (ClientCall k (Some T) attachToTarget))
      with (stubCall s attachToTarget).
    unfold stubCall. simpl. rewrite Ha. by eexists.
Qed.



(** C5, counterexample: a handle connected under a scope of the caller has
    no [close] function; [CloseE] on it returns nil and the handle's scope is
    not cancelled. *)
Lemma CloseE_leaves_caller_scope :
  exists b sc w',
    closeUnderCallerScope = (Return (b, sc, None, None), w') /\
    (exists v, heap w' !! b = Some v /\ ctx v = Some sc /\
               is_Some (client v)) /\
    isDone w' sc = false.
Proof.
  eexists _, _, _. split; [vm_compute; reflexivity|]. split.
  - eexists. split; [reflexivity|]. split; [reflexivity|]. by eexists.
  - vm_compute. reflexivity.
Qed.

Lemma CloseE_steps_witness :
  (exists w1, CloseE 0%nat (connectedWorld stub0) = (Return None, cancel 0%nat w1) /\
              isDone (cancel 0%nat w1) (CancelCtx 0 Background) = true) /\
  (exists w1, CloseE 0%nat (connectedWorld (stubRejecting "Browser.close")) =
                (Return (Some (RemoteErr "Browser.close")), w1)).
Proof.
  split.
  - pose (W := connectedWorld stub0).
    pose (w1 := snd (Call 0%nat browserClose W)).
    destruct (CloseE_steps 0%nat W) as [Hok _].
    destruct (Hok (JObject "" []) w1) as (v & k & Hb & _ & Hclose);
      [vm_compute; reflexivity|].
    injection Hb as <-. simpl in Hclose. destruct Hclose as (H1 & _ & H3).
    exists w1. split; [exact H1|]. apply (H3 Background). by left.
  - pose (W := connectedWorld (stubRejecting "Browser.close")).
    pose (w1 := snd (Call 0%nat browserClose W)).
    destruct (CloseE_steps 0%nat W) as [_ Herr].
    exists w1. apply (Herr JNull). vm_compute. reflexivity.
Defined.

(** C6, counterexample: the [Target.getTargets] call succeeds and lists a
    page-type target, yet [PagesE] returns nil and an error, because the
    endpoint rejects attaching to the page. *)
Lemma PagesE_fails_after_listing :
  exists j w1 w',
    Call 0%nat getTargets (connectedWorld (stubRejecting "Target.attachToTarget")) =
      (Return (j, None), w1) /\
    map targetIdOf (List.filter isPageTarget (Array (Get "targetInfos" j))) = ["T0"] /\
    PagesE 0%nat (connectedWorld (stubRejecting "Target.attachToTarget")) =
      (Return (None, Some (RemoteErr "Target.attachToTarget")), w').
Proof.
  eexists _, _, _. split; [vm_compute; reflexivity|].
  split; vm_compute; reflexivity.
Qed.

Lemma PagesE_lists_pages_witness :
  exists pages w',
    PagesE 0%nat (connectedWorld stub0) = (Return (Some pages, None), w') /\
    map TargetID pages = ["T0"] /\
    map calledMethod (wire w') =
      [Some "Target.getTargets"; Some "Target.attachToTarget"].
Proof.
  pose (W := connectedWorld stub0).
  pose (w1 := snd (Call 0%nat getTargets W)).
  destruct (PagesE_lists_pages 0%nat W
              (JObject "" [("targetInfos",
                            JArray "" (map targetInfo (targets stub0)))]) w1)
    as (r & w' & v & k & sc & Hrun & _ & _ & _ & Hr); [vm_compute; reflexivity|].
  destruct Hr as [(e & pre & t & post & rs & w2 & p & -> & _)
                 |(pages & rs & -> & Hids & _ & _ & _)].
  - exfalso. revert Hrun. vm_compute. discriminate.
  - exists pages, w'. split; [exact Hrun|]. split.
    + rewrite Hids. vm_compute. reflexivity.
    + vm_compute in Hrun. injection Hrun as _ <-. vm_compute. reflexivity.
Defined.




Lemma WaitEventE_cancel_returns_last_event_witness :
  exists h f w1,
    WaitEventE 0%nat (MethodFilter "B") (connectedWorld stub0) =
      (Return (h, f), w1) /\
    waitE h (cancel f (publishAll
                         [(0%nat, {| evMethod := "A"; evParams := JNull |})] w1)) =
      Some (Some {| evMethod := "A"; evParams := JNull |}, Some ContextErr) /\
    waitE h (publishAll [(0%nat, {| evMethod := "A"; evParams := JNull |});
                         (0%nat, {| evMethod := "B"; evParams := JNull |})] w1) =
      Some (Some {| evMethod := "B"; evParams := JNull |}, None).
Proof.
  destruct (WaitEventE_cancel_returns_last_event 0%nat connectedBrowser
              (CancelCtx 0 Background) 0%nat (MethodFilter "B")
              (connectedWorld stub0) eq_refl eq_refl eq_refl)
    as (h & f & w1 & Hrun & Hall); [vm_compute; reflexivity|set_solver|].
  exists h, f, w1. split; [exact Hrun|]. split.
  - destruct (Hall [] {| evMethod := "A"; evParams := JNull |}) as [Hc _];
      [constructor|]. by apply Hc.
  - destruct (Hall [{| evMethod := "A"; evParams := JNull |}]
                   {| evMethod := "B"; evParams := JNull |}) as [_ Hm];
      [by repeat constructor|]. by apply Hm.
Defined.

(** * Further properties *)

(** ** normalizeName *)
Section NormalizeName.
Implicit Types (s : list ascii) (c : ascii).

Lemma capitalize_cons c rest : capitalize (c :: rest) = upperByte c ++ rest.
Proof. destruct rest; simpl; [by rewrite app_nil_r|done]. Qed.

Lemma upperByte_clean c :
  c <> " "%char -> c <> "/"%char ->
  Forall (fun x => x <> " "%char /\ x <> "/"%char) (upperByte c).
Proof.
  intros Hs Hl.
  destruct c as [[] [] [] [] [] [] [] []]; vm_compute;
    repeat constructor; try discriminate; try done.
Qed.

Lemma upperByte_fixed c :
  isASCII c = true ->
  exists u, upperByte c = [u] /\ upperByte u = [u] /\ isASCII u = true.
Proof.
  intros H.
  destruct c as [[] [] [] [] [] [] [] []];
    try (vm_compute in H; discriminate H);
    (eexists; split; [reflexivity|split; reflexivity]).
Qed.

Lemma replaceSlash_no_slash s : Forall (fun x => x <> "/"%char) (replaceSlash s).
Proof.
  induction s as [|c s IH]; simpl; [constructor|].
  destruct (Ascii.eqb_spec c "/").
  - repeat constructor; try discriminate. done.
  - by constructor.
Qed.

Lemma replaceSlash_app s t : replaceSlash (s ++ t) = replaceSlash s ++ replaceSlash t.
Proof.
  induction s as [|c s IH]; simpl; [done|].
  rewrite IH. by destruct (Ascii.eqb c "/").
Qed.

Lemma replaceSlash_id s : Forall (fun x => x <> "/"%char) s -> replaceSlash s = s.
Proof.
  induction 1 as [|c s Hc _ IH]; simpl; [done|].
  destruct (Ascii.eqb_spec c "/"); [done|by rewrite IH].
Qed.

Lemma splitSpace_nonempty s : splitSpace s <> [].
Proof.
  destruct s as [|c s]; simpl; [done|].
  destruct (Ascii.eqb c " "); [done|]. by destruct (splitSpace s).
Qed.

Lemma splitSpace_Forall (P : ascii -> Prop) s :
  Forall P s -> Forall (Forall P) (splitSpace s).
Proof.
  induction 1 as [|c s Hc _ IH]; simpl; [by repeat constructor|].
  destruct (Ascii.eqb c " "); [by constructor|].
  destruct (splitSpace s) as [|p ps]; [by repeat constructor|].
  apply Forall_cons in IH as [Hp Hps]. by repeat constructor.
Qed.

Lemma splitSpace_no_space s :
  Forall (Forall (fun x => x <> " "%char)) (splitSpace s).
Proof.
  induction s as [|c s IH]; simpl; [by repeat constructor|].
  destruct (Ascii.eqb_spec c " "); [by constructor|].
  destruct (splitSpace s) as [|p ps]; [by repeat constructor|].
  apply Forall_cons in IH as [Hp Hps]. by repeat constructor.
Qed.

Lemma splitSpace_app s t :
  splitSpace (s ++ " "%char :: t) = splitSpace s ++ splitSpace t.
Proof.
  induction s as [|c s IH]; simpl; [done|].
  rewrite IH. destruct (Ascii.eqb c " "); [done|].
  pose proof (splitSpace_nonempty s).
  by destruct (splitSpace s).
Qed.

Lemma splitSpace_id s : Forall (fun x => x <> " "%char) s -> splitSpace s = [s].
Proof.
  induction 1 as [|c s Hc _ IH]; simpl; [done|].
  destruct (Ascii.eqb_spec c " "); [done|by rewrite IH].
Qed.

Lemma capitalize_clean s :
  Forall (fun x => x <> " "%char /\ x <> "/"%char) s ->
  Forall (fun x => x <> " "%char /\ x <> "/"%char) (capitalize s).
Proof.
  destruct s as [|c rest]; [done|]. rewrite capitalize_cons.
  intros [[Hs Hl] Hrest]%Forall_cons. apply Forall_app. split; [|done].
  by apply upperByte_clean.
Qed.

Lemma normalizeName_clean s :
  Forall (fun x => x <> " "%char /\ x <> "/"%char) (normalizeName s).
Proof.
  unfold normalizeName.
  pose proof (splitSpace_no_space (replaceSlash s)) as Hsp.
  pose proof (splitSpace_Forall _ _ (replaceSlash_no_slash s)) as Hsl.
  induction (splitSpace (replaceSlash s)) as [|p ps IH]; simpl; [constructor|].
  apply Forall_cons in Hsp as [Hp Hps]. apply Forall_cons in Hsl as [Hq Hqs].
  apply Forall_app. split; [|by apply IH].
  apply capitalize_clean. apply Forall_forall. intros x Hx.
  rewrite Forall_forall in Hp, Hq. split; [by apply Hp|by apply Hq].
Qed.

(** X1.  Whatever the name, the identifier that normalizeName returns
    contains neither a space nor a slash. *)
Theorem normalizeName_no_space_no_slash s :
  ~ In " "%char (normalizeName s) /\ ~ In "/"%char (normalizeName s).
Proof.
  pose proof (normalizeName_clean s) as H. rewrite Forall_forall in H.
  split; intros Hin%list_elem_of_In; by destruct (H _ Hin).
Qed.

Lemma normalizeName_app_space s t :
  normalizeName (s ++ " "%char :: t) = normalizeName s ++ normalizeName t.
Proof.
  unfold normalizeName. rewrite replaceSlash_app. simpl.
  by rewrite splitSpace_app, List.map_app, concat_app.
Qed.

(** X2.  normalizeName works word by word: the identifier of two names
    joined by a space is the identifier of the first followed by the
    identifier of the second. *)
Theorem normalizeName_words s t :
  normalizeName (s ++ " "%char :: t) = normalizeName s ++ normalizeName t.
Proof. apply normalizeName_app_space. Qed.

Lemma capitalize_nil s : capitalize s = [] -> s = [].
Proof.
  destruct s as [|c rest]; [done|]. rewrite capitalize_cons.
  unfold upperByte. by destruct (isASCII c).
Qed.

Lemma splitSpace_all_empty s :
  Forall (fun p => p = []) (splitSpace s) -> Forall (fun x => x = " "%char) s.
Proof.
  induction s as [|c s IH]; simpl; [constructor|].
  destruct (Ascii.eqb_spec c " ").
  - intros [_ Hps]%Forall_cons. constructor; [done|by apply IH].
  - destruct (splitSpace s); by intros [? _]%Forall_cons.
Qed.

Lemma replaceSlash_spaces s :
  Forall (fun x => x = " "%char) (replaceSlash s) -> Forall (fun x => x = " "%char) s.
Proof.
  induction s as [|c s IH]; simpl; [constructor|].
  destruct (Ascii.eqb_spec c "/").
  - by intros [? _]%Forall_cons.
  - intros [? ?]%Forall_cons. constructor; [done|by apply IH].
Qed.

(** X3.  The identifier is empty exactly when the name consists of spaces
    only (the empty name included). *)
Theorem normalizeName_empty_iff s :
  normalizeName s = [] <-> Forall (fun x => x = " "%char) s.
Proof.
  split.
  - intros Hnil. apply replaceSlash_spaces, splitSpace_all_empty.
    unfold normalizeName in Hnil.
    induction (splitSpace (replaceSlash s)) as [|p ps IH]; [constructor|].
    simpl in Hnil. apply app_eq_nil in Hnil as [Hp Hps].
    constructor; [by apply capitalize_nil|by apply IH].
  - induction 1 as [|c s -> _ IH]; [done|].
    change (" "%char :: s) with ([] ++ " "%char :: s).
    by rewrite normalizeName_app_space.
Qed.

Lemma replaceSlash_ascii s :
  Forall (fun x => isASCII x = true) s ->
  Forall (fun x => isASCII x = true) (replaceSlash s).
Proof.
  induction 1 as [|c s Hc _ IH]; simpl; [constructor|].
  destruct (Ascii.eqb c "/"); by repeat constructor.
Qed.

(** The first byte, if any, is one that upper-casing keeps. *)
Lemma capitalize_head s :
  Forall (fun x => isASCII x = true) s ->
  match capitalize s with
  | [] => True
  | c :: _ => upperByte c = [c]
  end.
Proof.
  destruct s as [|c rest]; [done|]. rewrite capitalize_cons.
  intros [Hc _]%Forall_cons.
  by destruct (upperByte_fixed c Hc) as (u & -> & Hu & _).
Qed.

Lemma concat_head (ls : list (list ascii)) :
  Forall (fun l => match l with [] => True | c :: _ => upperByte c = [c] end) ls ->
  match concat ls with
  | [] => True
  | c :: _ => upperByte c = [c]
  end.
Proof.
  induction 1 as [|l ls Hl _ IH]; simpl; [done|]. by destruct l.
Qed.

(** X4.  On an ASCII name normalizeName is idempotent: normalizing an
    identifier it produced gives that identifier back. *)
Theorem normalizeName_idempotent s :
  Forall (fun x => isASCII x = true) s ->
  normalizeName (normalizeName s) = normalizeName s.
Proof.
  intros Hascii.
  pose proof (normalizeName_clean s) as Hclean.
  assert (match normalizeName s with
          | [] => True
          | c :: _ => upperByte c = [c]
          end) as Hhead.
  { unfold normalizeName. apply concat_head.
    pose proof (splitSpace_Forall _ _ (replaceSlash_ascii _ Hascii)) as Hps.
    induction Hps as [|p ps Hp _ IH]; simpl; [constructor|].
    constructor; [by apply capitalize_head|done]. }
  unfold normalizeName at 1.
  rewrite replaceSlash_id, splitSpace_id.
  - simpl. rewrite app_nil_r.
    destruct (normalizeName s) as [|c rest]; [done|].
    by rewrite capitalize_cons, Hhead.
  - eapply Forall_impl; [exact Hclean|]. by intros x [? ?].
  - eapply Forall_impl; [exact Hclean|]. by intros x [? ?].
Qed.

End NormalizeName.

Lemma normalizeName_idempotent_witness :
  normalizeName (list_ascii_of_string "iPhone 6/7/8 Plus") =
    list_ascii_of_string "IPhone6or7or8Plus" /\
  normalizeName (normalizeName (list_ascii_of_string "iPhone 6/7/8 Plus")) =
    normalizeName (list_ascii_of_string "iPhone 6/7/8 Plus").
Proof.
  split; [vm_compute; reflexivity|].
  apply normalizeName_idempotent. vm_compute. repeat constructor.
Defined.

(** ** Handles and their configuration *)
Section Handles.
Context {E : Type} `{!Remote E}.
Implicit Types (w : World E) (v : Browser).

Lemma setter_run (f : Browser -> Browser) b v w :
  heap w !! b = Some v ->
  bind (load b) (fun u => bind (store b (f u)) (fun _ => ret b)) w =
    (Return b, setHeap (<[b := f v]> (heap w)) w).
Proof. intros Hb. unfold bind, load, store. rewrite Hb. simpl. by rewrite Hb. Qed.

(** X5.  Configuration set after a handle was derived stays on the handle
    it was set on.  After [d := b.Context(c)], the four setters called on
    [b] change [b] alone and [d] keeps the values it was copied with; called
    on [d], they change [d] alone and [b] keeps its own. *)
Theorem setters_do_not_cross b v w c url opts delay enable :
  heap w !! b = Some v ->
  exists d w1,
    Context b c w = (Return d, w1) /\ d <> b /\
    (let after := snd (Trace b enable (snd (Slowmotion b delay
                    (snd (Viewport b opts (snd (ControlURL b url w1))))))) in
     heap after !! b =
       Some (withTrace enable (withSlowmotion delay
               (withViewport opts (withControlURL url v)))) /\
     heap after !! d = Some (withCtx c v)) /\
    (let after := snd (Trace d enable (snd (Slowmotion d delay
                    (snd (Viewport d opts (snd (ControlURL d url w1))))))) in
     heap after !! d =
       Some (withTrace enable (withSlowmotion delay
               (withViewport opts (withControlURL url (withCtx c v))))) /\
     heap after !! b = Some v).
Proof.
  intros Hb. pose proof (lookup_lt_Some _ _ _ Hb) as Hlt.
  exists (length (heap w)), (setHeap (heap w ++ [withCtx c v]) w).
  split; [by apply Context_run|]. split; [lia|].
  assert (forall (h : list Browser) a u, a < length h ->
            <[a := u]> h !! a = Some u)%nat as Hins
    by (intros; by apply list_lookup_insert_eq).
  assert ((heap w ++ [withCtx c v]) !! b = Some v) as Hb1
    by (by rewrite lookup_app_l).
  assert ((heap w ++ [withCtx c v]) !! length (heap w) = Some (withCtx c v)) as Hd1
    by (by rewrite lookup_app_r, Nat.sub_diag).
  assert (forall (f1 f2 f3 f4 : Browser -> Browser) a u (w0 : World E),
            heap w0 !! a = Some u ->
            heap (snd (bind (load a) (fun x => bind (store a (f4 x)) (fun _ => ret a))
                 (snd (bind (load a) (fun x => bind (store a (f3 x)) (fun _ => ret a))
                 (snd (bind (load a) (fun x => bind (store a (f2 x)) (fun _ => ret a))
                 (snd (bind (load a) (fun x => bind (store a (f1 x)) (fun _ => ret a))
                 w0)))))))) =
            <[a := f4 (f3 (f2 (f1 u)))]> (heap w0)) as Hfour.
  { intros f1 f2 f3 f4 a u w0 Ha. pose proof (lookup_lt_Some _ _ _ Ha) as Hla.
    rewrite (setter_run f1 a u w0 Ha). cbn [snd].
    rewrite (setter_run f2 a (f1 u)) by (simpl; by apply Hins). cbn [snd].
    rewrite (setter_run f3 a (f2 (f1 u)))
      by (simpl; apply Hins; by rewrite length_insert).
    cbn [snd].
    rewrite (setter_run f4 a (f3 (f2 (f1 u))))
      by (simpl; apply Hins; by rewrite !length_insert).
    simpl. by rewrite !list_insert_insert_eq. }
  split.
  - unfold ControlURL, Viewport, Slowmotion, Trace. cbv zeta.
    rewrite (Hfour _ _ _ _ b v) by exact Hb1. simpl. split.
    + apply Hins. rewrite length_app. simpl. lia.
    + rewrite list_lookup_insert_ne by lia. done.
  - unfold ControlURL, Viewport, Slowmotion, Trace. cbv zeta.
    rewrite (Hfour _ _ _ _ (length (heap w)) (withCtx c v)) by exact Hd1.
    simpl. split.
    + apply Hins. rewrite length_app. simpl. lia.
    + rewrite list_lookup_insert_ne by lia. done.
Qed.

(** X6.  Every method called through a nil [*Browser] panics with a nil
    dereference before it does anything: the world is left as it was and
    nothing reaches a collaborator. *)
Theorem nil_handle_panics b w :
  heap w !! b = None ->
  (forall url, ControlURL b url w = (Panicked NilDeref, w)) /\
  (forall opts, Viewport b opts w = (Panicked NilDeref, w)) /\
  (forall delay, Slowmotion b delay w = (Panicked NilDeref, w)) /\
  (forall enable, Trace b enable w = (Panicked NilDeref, w)) /\
  (forall c, Context b c w = (Panicked NilDeref, w)) /\
  (forall d, Timeout b d w = (Panicked NilDeref, w)) /\
  ConnectE b w = (Panicked NilDeref, w) /\
  (forall req, Call b req w = (Panicked NilDeref, w)) /\
  CloseE b w = (Panicked NilDeref, w) /\
  (forall url, PageE b url w = (Panicked NilDeref, w)) /\
  PagesE b w = (Panicked NilDeref, w) /\
  (forall filter, WaitEventE b filter w = (Panicked NilDeref, w)).
Proof.
  intros Hb.
  assert (forall req, Call b req w = (Panicked NilDeref, w)) as Hcall.
  { intros req. unfold Call, bind, load. by rewrite Hb. }
  repeat split; intros;
    try (unfold ControlURL, Viewport, Slowmotion, Trace, Context, Timeout,
           ConnectE, rootScope, WaitEventE, bind, load; by rewrite Hb);
    try apply Hcall.
  - unfold CloseE, bind. by rewrite Hcall.
  - unfold PageE, bind. by rewrite Hcall.
  - unfold PagesE, bind. by rewrite Hcall.
Qed.

(** X7.  On a handle without a scope, as [New] returns it, [Timeout] and
    [WaitEventE] panic on the nil parent context and change nothing:
    [timeoutCancel] is not written and no goroutine is started.  [Context]
    needs no scope and still returns a copy. *)
Theorem no_scope_panics b v w :
  heap w !! b = Some v -> ctx v = None ->
  (forall d, Timeout b d w = (Panicked NilContext, w)) /\
  (forall filter, WaitEventE b filter w = (Panicked NilContext, w)) /\
  (forall c, exists w', Context b c w = (Return (length (heap w)), w') /\
                        heap w' !! length (heap w) = Some (withCtx c v)).
Proof.
  intros Hb Hc. repeat split.
  - intros d. unfold Timeout, bind, load, WithTimeout. by rewrite Hb, Hc.
  - intros filter. unfold WaitEventE, bind, load, WithCancel. by rewrite Hb, Hc.
  - intros c. eexists. rewrite (Context_run _ _ _ _ Hb). split; [done|].
    simpl. by rewrite lookup_app_r, Nat.sub_diag.
Qed.

End Handles.

Lemma setters_do_not_cross_witness :
  exists d w1,
    Context 0%nat None (connectedWorld stub0) = (Return d, w1) /\
    slowmotion <$> heap (snd (Slowmotion 0%nat 7 w1)) !! 0%nat = Some 7 /\
    slowmotion <$> heap (snd (Slowmotion 0%nat 7 w1)) !! d = Some 0.
Proof.
  destruct (setters_do_not_cross 0%nat connectedBrowser (connectedWorld stub0)
              None "ws://b" None 7 true eq_refl)
    as (d & w1 & Hrun & _ & _ & _).
  exists d, w1. split; [exact Hrun|].
  injection Hrun as <- <-. split; vm_compute; reflexivity.
Defined.

Lemma nil_handle_panics_witness :
  CloseE 3%nat (connectedWorld stub0) = (Panicked NilDeref, connectedWorld stub0).
Proof.
  by destruct (nil_handle_panics 3%nat (connectedWorld stub0) eq_refl)
    as (_ & _ & _ & _ & _ & _ & _ & _ & H & _).
Defined.

Lemma no_scope_panics_witness :
  Timeout 0%nat 5 (unconnectedWorld stub0) =
    (Panicked NilContext, unconnectedWorld stub0).
Proof.
  destruct (no_scope_panics 0%nat (withControlURL "ws://a" zeroBrowser)
              (unconnectedWorld stub0) eq_refl eq_refl) as (H & _).
  apply H.
Defined.

(** ** What ConnectE leaves on the handle *)
Section ConnectState.
Context {E : Type} `{!Remote E}.
Implicit Types (w : World E) (v : Browser).

Lemma keepsScopes_ret {A} (a : A) : keepsScopes (E:=E) (ret a).
Proof. by intros w. Qed.

Lemma keepsScopes_bind {A B} (m : World E -> Outcome A * World E)
    (k : A -> World E -> Outcome B * World E) :
  keepsScopes m -> (forall a, keepsScopes (k a)) -> keepsScopes (bind m k).
Proof.
  intros Hm Hk w. unfold bind. destruct (Hm w) as [Hn Hc].
  destruct (m w) as [[a|x] w1]; simpl in *; [|done].
  destruct (Hk a w1) as [Hn' Hc']. by rewrite Hn', Hc'.
Qed.

Lemma keepsScopes_load b : keepsScopes (E:=E) (load b).
Proof. intros w. unfold load. by destruct (heap w !! b). Qed.

Lemma keepsScopes_store b u : keepsScopes (E:=E) (store b u).
Proof. intros w. unfold store. by destruct (heap w !! b). Qed.

Lemma keepsScopes_exchange a : keepsScopes (exchange a).
Proof. by intros w. Qed.

Lemma keepsScopes_Call b req : keepsScopes (Call b req).
Proof.
  unfold Call. apply keepsScopes_bind; [apply keepsScopes_load|]. intros u.
  apply keepsScopes_bind; [by intros w|]. intros _.
  unfold clientCall. destruct (client u), (ctx u); try (by intros w).
  intros w. by destruct (isDone w c).
Qed.

Lemma keepsScopes_connectClient b : keepsScopes (connectClient b).
Proof.
  unfold connectClient. apply keepsScopes_bind; [apply keepsScopes_load|].
  intros u. apply keepsScopes_bind.
  { unfold cdpNew. apply keepsScopes_bind; [apply keepsScopes_exchange|].
    intros [j|e]; by intros w. }
  intros r. destruct (snd r); [apply keepsScopes_ret|].
  apply keepsScopes_bind; [apply keepsScopes_store|]. intros _.
  unfold initEvents. apply keepsScopes_bind; [apply keepsScopes_load|].
  intros u'. apply keepsScopes_bind; [by intros w|]. intros o.
  apply keepsScopes_bind; [apply keepsScopes_store|]. intros _.
  apply keepsScopes_bind; [apply keepsScopes_Call|]. intros r'.
  apply keepsScopes_ret.
Qed.

Lemma keepsScopes_resolveAndConnect b : keepsScopes (resolveAndConnect b).
Proof.
  unfold resolveAndConnect. apply keepsScopes_bind; [apply keepsScopes_load|].
  intros u. apply keepsScopes_bind; [apply keepsScopes_exchange|].
  intros [j|e]; [apply keepsScopes_connectClient|].
  apply keepsScopes_bind; [apply keepsScopes_exchange|].
  intros [j|e']; [|apply keepsScopes_ret].
  apply keepsScopes_bind; [apply keepsScopes_store|]. intros _.
  apply keepsScopes_connectClient.
Qed.

(** The fields ConnectE never writes. *)
Lemma connectClient_state b w v sc :
  heap w !! b = Some v -> ctx v = Some sc ->
  exists r w' d v',
    connectClient b w = (Return r, w') /\
    wire w' = wire w ++ d /\
    connected (nextClient w) (controlURL v) (isDone w' sc) d r /\
    heap w' !! b = Some v' /\
    (forall a, a <> b -> heap w' !! a = heap w !! a) /\
    match d with
    | (Dial _, Ok _) :: _ =>
        v' = withEvent (Some (nextObs w)) (withClient (Some (nextClient w)) v)
    | _ => v' = v
    end.
Proof.
  intros Hb Hc. pose proof (lookup_lt_Some _ _ _ Hb) as Hlt.
  unfold connectClient, bind, load. rewrite Hb.
  unfold cdpNew, bind, exchange.
  destruct (snd (respond (remote w) (Dial (controlURL v)))) as [r|e] eqn:Hdial.
  2:{ simpl. eexists _, _, [_], v. split; [reflexivity|].
      rewrite answered_wire, Hdial. split; [reflexivity|].
      split; [constructor|]. split; [done|]. split; done. }
  simpl. unfold store at 1. simpl. rewrite Hb.
  rewrite (initEvents_run _ _ (withClient (Some (nextClient w)) v)
             (nextClient w) sc);
    [|simpl; by apply list_lookup_insert_eq|done|done].
  simpl.
  match goal with |- context [isDone ?ws sc] =>
    destruct (isDone ws sc) eqn:Hdone end.
  { eexists _, _, [_], _. split; [reflexivity|]. rewrite slept_wire. simpl.
    rewrite Hdial. split; [reflexivity|].
    split; [apply (connected_done _ _ true);
            [symmetry; exact Hdone|constructor]|].
    rewrite list_insert_insert_eq.
    split; [by apply list_lookup_insert_eq|].
    split; [|done]. intros a Ha. by rewrite list_lookup_insert_ne. }
  destruct (snd (respond _ (ClientCall _ _ _))) as [r'|e] eqn:Hdisc.
  - eexists _, _, [_; _], _. split; [reflexivity|].
    rewrite answered_wire, slept_wire. simpl. rewrite Hdial, Hdisc.
    split; [by rewrite <- app_assoc|].
    split; [apply (connected_done _ _ false);
            [symmetry; exact Hdone|constructor]|].
    rewrite list_insert_insert_eq.
    split; [by apply list_lookup_insert_eq|].
    split; [|done]. intros a Ha. by rewrite list_lookup_insert_ne.
  - eexists _, _, [_; _], _. split; [reflexivity|].
    rewrite answered_wire, slept_wire. simpl. rewrite Hdial, Hdisc.
    split; [by rewrite <- app_assoc|].
    split; [apply (connected_done _ _ false);
            [symmetry; exact Hdone|constructor]|].
    rewrite list_insert_insert_eq.
    split; [by apply list_lookup_insert_eq|].
    split; [|done]. intros a Ha. by rewrite list_lookup_insert_ne.
Qed.

Lemma resolveAndConnect_state b w v sc :
  heap w !! b = Some v -> ctx v = Some sc ->
  exists r w' pre d v',
    resolveAndConnect b w = (Return r, w') /\
    wire w' = wire w ++ pre ++ d /\
    heap w' !! b = Some v' /\
    (forall a, a <> b -> heap w' !! a = heap w !! a) /\
    ((exists e, resolved (controlURL v) pre (inr e) /\ d = [] /\
                r = Some e /\ v' = v) \/
     (exists u, resolved (controlURL v) pre (inl u) /\
                connected (nextClient w) u (isDone w' sc) d r /\
                match d with
                | (Dial _, Ok _) :: _ =>
                    v' = withEvent (Some (nextObs w))
                           (withClient (Some (nextClient w))
                              (withControlURL u v))
                | _ => v' = withControlURL u v
                end)).
Proof.
  intros Hb Hc. pose proof (lookup_lt_Some _ _ _ Hb) as Hlt.
  unfold resolveAndConnect, bind, load, exchange. rewrite Hb.
  destruct (snd (respond (remote w) (GetWebSocketDebuggerURL (controlURL v))))
    as [r|e] eqn:Hprobe.
  - destruct (connectClient_state b
                (answered (GetWebSocketDebuggerURL (controlURL v)) w) v sc)
      as (res & w' & d & v' & Hrun & Hw & Hd & Hb' & Hoth & Hv'); [done|done|].
    exists res, w', [(GetWebSocketDebuggerURL (controlURL v), Ok r)], d, v'.
    split; [done|]. rewrite Hw, answered_wire, Hprobe.
    split; [by rewrite <- app_assoc|]. split; [done|]. split; [done|].
    right. exists (controlURL v). split; [constructor|]. split; [done|].
    by destruct v.
  - destruct (snd (respond _ LaunchE)) as [u|e'] eqn:Hlaunch.
    + unfold store. simpl. rewrite Hb.
      destruct (connectClient_state b
                  (setHeap (<[b:=withControlURL (String u) v]> (heap w))
                     (answered LaunchE
                        (answered (GetWebSocketDebuggerURL (controlURL v)) w)))
                  (withControlURL (String u) v) sc)
        as (res & w' & d & v' & Hrun & Hw & Hd & Hb' & Hoth & Hv');
        [simpl; by apply list_lookup_insert_eq|done|].
      exists res, w',
        [(GetWebSocketDebuggerURL (controlURL v), Fail e); (LaunchE, Ok u)], d, v'.
      split; [done|]. rewrite Hw. simpl. simpl in Hlaunch.
      rewrite Hprobe, Hlaunch.
      split; [by rewrite <- !app_assoc|]. split; [done|]. split.
      * intros a Ha. rewrite (Hoth a Ha). simpl.
        by rewrite list_lookup_insert_ne.
      * right. exists (String u). split; [constructor|]. split; done.
    + eexists _, _, [_; _], [], v. split; [reflexivity|]. simpl.
      simpl in Hlaunch. rewrite Hprobe, Hlaunch.
      split; [by rewrite <- app_assoc|]. split; [done|]. split; [done|].
      left. exists e'. split; [constructor|done].
Qed.

(** X8.  Whatever its result, [ConnectE] returns, writes no handle but its
    receiver and never writes [viewport], [slowmotion], [trace] or
    [timeoutCancel].  A receiver without a scope gets a fresh cancellable
    root scope under [Background] whose cancel function becomes [close], and
    keeps them when a later step fails; a receiver with a scope keeps its
    scope and its [close]. *)
Theorem ConnectE_scope b w v :
  heap w !! b = Some v ->
  exists r w' v',
    ConnectE b w = (Return r, w') /\
    heap w' !! b = Some v' /\
    (forall a, a <> b -> heap w' !! a = heap w !! a) /\
    viewport v' = viewport v /\ slowmotion v' = slowmotion v /\
    trace v' = trace v /\ timeoutCancel v' = timeoutCancel v /\
    match ctx v with
    | None => ctx v' = Some (CancelCtx (nextCtx w) Background) /\
              close v' = Some (nextCtx w) /\ nextCtx w' = S (nextCtx w)
    | Some sc => ctx v' = Some sc /\ close v' = close v /\
                 nextCtx w' = nextCtx w /\ cancelled w' = cancelled w
    end.
Proof.
  intros Hb. pose proof (lookup_lt_Some _ _ _ Hb) as Hlt.
  unfold ConnectE, bind at 1. unfold rootScope, bind, load. rewrite Hb.
  destruct (ctx v) as [sc|] eqn:Hc.
  - simpl.
    destruct (resolveAndConnect_state b w v sc Hb Hc)
      as (r & w' & pre & d & v' & Hrun & _ & Hb' & Hoth & Hcases).
    exists r, w', v'. split; [done|]. split; [done|]. split; [done|].
    assert (nextCtx w' = nextCtx w /\ cancelled w' = cancelled w) as [Hn Hcan].
    { pose proof (keepsScopes_resolveAndConnect b w) as Hk.
      by rewrite Hrun in Hk. }
    destruct Hcases as [(e & _ & _ & _ & ->)|(u & _ & _ & Hv')].
    + by rewrite Hc.
    + destruct d as [|[[] []] ?]; subst v'; by rewrite ?Hc.
  - unfold WithCancel, store. simpl. rewrite Hb.
    set (v0 := withClose (Some (nextCtx w))
                 (withCtx (Some (CancelCtx (nextCtx w) Background)) v)).
    set (w0 := setHeap (<[b:=v0]> (heap w)) (setNextCtx (S (nextCtx w)) w)).
    assert (heap w0 !! b = Some v0) as Hb0
      by (simpl; by apply list_lookup_insert_eq).
    destruct (resolveAndConnect_state b w0 v0 (CancelCtx (nextCtx w) Background)
                Hb0 eq_refl)
      as (r & w' & pre & d & v' & Hrun & _ & Hb' & Hoth & Hcases).
    exists r, w', v'. split; [done|]. split; [done|]. split.
    { intros a Ha. rewrite (Hoth a Ha). simpl. by rewrite list_lookup_insert_ne. }
    assert (nextCtx w' = S (nextCtx w)) as Hn.
    { pose proof (keepsScopes_resolveAndConnect b w0) as [Hk _].
      by rewrite Hrun in Hk. }
    destruct Hcases as [(e & _ & _ & _ & ->)|(u & _ & _ & Hv')].
    + done.
    + destruct d as [|[[] []] ?]; subst v'; done.
Qed.

End ConnectState.

Section ConnectPartial.
Context {E : Type} `{!Remote E}.
Implicit Types (w : World E) (v : Browser).

Lemma resolveAndConnect_partial b w v sc :
  heap w !! b = Some v -> ctx v = Some sc ->
  exists r w' d v',
    resolveAndConnect b w = (Return r, w') /\
    wire w' = wire w ++ d /\
    heap w' !! b = Some v' /\
    (forall j, In (LaunchE, Ok j) d -> controlURL v' = String j) /\
    ((forall j, ~ In (LaunchE, Ok j) d) -> controlURL v' = controlURL v) /\
    (forall u j, In (Dial u, Ok j) d ->
                 client v' = Some (nextClient w) /\
                 event v' = Some (nextObs w) /\ controlURL v' = u) /\
    ((forall u j, ~ In (Dial u, Ok j) d) ->
     client v' = client v /\ event v' = event v).
Proof.
  intros Hb Hc.
  destruct (resolveAndConnect_state b w v sc Hb Hc)
    as (r & w' & pre & d & v' & Hrun & Hw & Hb' & _ & Hcases).
  exists r, w', (pre ++ d), v'. split; [done|]. split; [done|]. split; [done|].
  destruct Hcases as [(e & Hres & -> & -> & ->)|(u & Hres & Hconn & Hv')].
  - inversion Hres; subst; simpl; repeat split; intros; naive_solver.
  - inversion Hres; subst; inversion Hconn; subst; simpl in *; subst v';
      simpl; repeat split; intros; naive_solver.
Qed.

(** X9.  The writes of [ConnectE] are not undone when a later step fails.
    Once the launcher has answered, [controlURL] holds the launcher's URL,
    also when the dial then fails; once the dial has succeeded, the handle
    holds the new client, a fresh event bus and the URL that was dialled,
    also when enabling discovery then fails.  Without a launch [controlURL]
    is as supplied, and without a successful dial [client] and [event] are
    as they were. *)
Theorem ConnectE_not_rolled_back b w v :
  heap w !! b = Some v ->
  exists r w' d v',
    ConnectE b w = (Return r, w') /\
    wire w' = wire w ++ d /\
    heap w' !! b = Some v' /\
    (forall j, In (LaunchE, Ok j) d -> controlURL v' = String j) /\
    ((forall j, ~ In (LaunchE, Ok j) d) -> controlURL v' = controlURL v) /\
    (forall u j, In (Dial u, Ok j) d ->
                 client v' = Some (nextClient w) /\
                 event v' = Some (nextObs w) /\ controlURL v' = u) /\
    ((forall u j, ~ In (Dial u, Ok j) d) ->
     client v' = client v /\ event v' = event v).
Proof.
  intros Hb. pose proof (lookup_lt_Some _ _ _ Hb) as Hlt.
  unfold ConnectE, bind at 1. unfold rootScope, bind, load. rewrite Hb.
  destruct (ctx v) as [sc|] eqn:Hc.
  - simpl. by apply (resolveAndConnect_partial b w v sc).
  - unfold WithCancel, store. simpl. rewrite Hb.
    set (v0 := withClose (Some (nextCtx w))
                 (withCtx (Some (CancelCtx (nextCtx w) Background)) v)).
    set (w0 := setHeap (<[b:=v0]> (heap w)) (setNextCtx (S (nextCtx w)) w)).
    assert (heap w0 !! b = Some v0) as Hb0
      by (simpl; by apply list_lookup_insert_eq).
    apply (resolveAndConnect_partial b w0 v0 (CancelCtx (nextCtx w) Background)
             Hb0 eq_refl).
Qed.

End ConnectPartial.

Lemma ConnectE_scope_witness :
  exists w' v',
    ConnectE 0%nat (unconnectedWorld stub0) = (Return None, w') /\
    heap w' !! 0%nat = Some v' /\
    ctx v' = Some (CancelCtx 0 Background) /\ close v' = Some 0%nat.
Proof.
  destruct (ConnectE_scope 0%nat (unconnectedWorld stub0)
              (withControlURL "ws://a" zeroBrowser) eq_refl)
    as (r & w' & v' & Hrun & Hb & _ & _ & _ & _ & _ & Hc & Hcl & _).
  assert (r = None) as ->.
  { revert Hrun. vm_compute. intros [= <- _]. reflexivity. }
  exists w', v'. split; [exact Hrun|]. split; [exact Hb|].
  split; [exact Hc|exact Hcl].
Defined.

(** The launcher starts a browser at "ws://new", whose discovery call the
    endpoint rejects. *)
Lemma ConnectE_not_rolled_back_witness :
  exists e w' v',
    ConnectE 0%nat
      (unconnectedWorld
         {| usable := []; launches := Some "ws://new";
            rejects := ["Target.setDiscoverTargets"]; freshTarget := "T1";
            targets := [] |}) = (Return (Some e), w') /\
    heap w' !! 0%nat = Some v' /\
    controlURL v' = "ws://new" /\ client v' = Some 0%nat /\
    event v' = Some 0%nat.
Proof.
  set (W := unconnectedWorld
              {| usable := []; launches := Some "ws://new";
                 rejects := ["Target.setDiscoverTargets"]; freshTarget := "T1";
                 targets := [] |}).
  destruct (ConnectE_not_rolled_back 0%nat W
              (withControlURL "ws://a" zeroBrowser) eq_refl)
    as (r & w' & d & v' & Hrun & Hw & Hb & Hlaunch & _ & Hdial & _).
  assert (r = Some (RemoteErr "Target.setDiscoverTargets") /\
          d = [(GetWebSocketDebuggerURL "ws://a", Fail (RemoteErr "no debugger url"));
               (LaunchE, Ok (JString "ws://new"));
               (Dial "ws://new", Ok JNull);
               (ClientCall 0%nat None setDiscoverTargets,
                Fail (RemoteErr "Target.setDiscoverTargets"))]) as [-> ->].
  { revert Hrun Hw. vm_compute. intros [= <- <-] [= <-]. split; reflexivity. }
  exists (RemoteErr "Target.setDiscoverTargets"), w', v'.
  split; [exact Hrun|]. split; [exact Hb|].
  destruct (Hdial "ws://new" JNull) as (Hk & He & Hu); [simpl; auto|].
  split; [exact Hu|]. split; [exact Hk|exact He].
Defined.

(** ** After Close *)
Section AfterClose.
Context {E : Type} `{!Remote E}.
Implicit Types (w : World E) (v : Browser) (x : Waiter).

Lemma ctxDone_later s t t' c :
  t <= t' -> ctxDone s t c = true -> ctxDone s t' c = true.
Proof.
  intros Hle. induction c as [|id p IH|id dl p IH]; simpl; [done| |]; intros Hd.
  - apply orb_true_iff in Hd as [Hd|Hd]; [by rewrite Hd|].
    rewrite (IH Hd). apply orb_true_r.
  - apply orb_true_iff in Hd as [Hd|Hd].
    + apply orb_true_iff in Hd as [Hd|Hd]; [by rewrite Hd|].
      apply Z.leb_le in Hd. rewrite (proj2 (Z.leb_le dl t')) by lia.
      by rewrite orb_true_r.
    + rewrite (IH Hd). apply orb_true_r.
Qed.

Lemma isDone_slept d w c : isDone w c = true -> isDone (slept d w) c = true.
Proof. unfold isDone. simpl. apply ctxDone_later. lia. Qed.

(** A call under a scope that is done returns the context error, and
    nothing reaches the endpoint. *)
Lemma Call_done b req w v k sc :
  heap w !! b = Some v -> client v = Some k -> ctx v = Some sc ->
  isDone w sc = true ->
  Call b req w = (Return (JNull, Some ContextErr), slept (slowmotion v) w).
Proof.
  intros Hb Hk Hc Hd. rewrite (Call_run _ _ _ _ Hb), Hk, Hc, clientCall_run.
  by rewrite (isDone_slept _ _ _ Hd).
Qed.

Lemma CloseE_ok_inv b w w2 :
  CloseE b w = (Return None, w2) ->
  exists j w1 v,
    Call b browserClose w = (Return (j, None), w1) /\
    heap w !! b = Some v /\
    w2 = match close v with Some f => cancel f w1 | None => w1 end.
Proof.
  intros Hclose.
  destruct (Call b browserClose w) as [[[j [e|]]|x] w1] eqn:Hcall.
  - unfold CloseE, bind in Hclose. by rewrite Hcall in Hclose.
  - destruct (Call_ok _ _ _ _ _ Hcall) as (v & k & sc & Hb & _ & _ & Hh1 & _).
    rewrite (CloseE_run _ _ _ _ v Hcall) in Hclose by (by rewrite Hh1).
    injection Hclose as <-. by exists j, w1, v.
  - unfold CloseE, bind in Hclose. by rewrite Hcall in Hclose.
Qed.

(** X10.  After a [CloseE] that succeeded on a handle whose [close] function
    belongs to the scope its own scope derives from (as after [ConnectE] on a
    fresh handle), every handle under that scope is dead: a later call
    returns the context error and nothing reaches the endpoint, so a second
    [CloseE] returns that error, [Close] panics with it, and [PageE] and
    [PagesE] return nil with it. *)
Theorem closed_handle_is_dead b v f p c w w2 :
  heap w !! b = Some v -> ctx v = Some c -> close v = Some f ->
  derivedFrom (CancelCtx f p) c ->
  CloseE b w = (Return None, w2) ->
  (forall b' v' k' c' req,
      heap w2 !! b' = Some v' -> client v' = Some k' -> ctx v' = Some c' ->
      derivedFrom (CancelCtx f p) c' ->
      exists w3, Call b' req w2 = (Return (JNull, Some ContextErr), w3) /\
                 wire w3 = wire w2 /\ remote w3 = remote w2) /\
  (exists w3, CloseE b w2 = (Return (Some ContextErr), w3) /\ wire w3 = wire w2) /\
  (exists w3, Close b w2 = (Panicked (ErrPanic ContextErr), w3)) /\
  (forall url, exists w3, PageE b url w2 = (Return (None, Some ContextErr), w3) /\
                          wire w3 = wire w2) /\
  (exists w3, PagesE b w2 = (Return (None, Some ContextErr), w3) /\
              wire w3 = wire w2).
Proof.
  intros Hb Hc Hf Hder Hclose.
  destruct (CloseE_ok_inv _ _ _ Hclose) as (j & w1 & v0 & Hcall & Hb0 & ->).
  rewrite Hb in Hb0. injection Hb0 as <-. rewrite Hf.
  destruct (Call_ok _ _ _ _ _ Hcall) as (v1 & k & sc & Hb1 & Hk & _ & Hh1 & _).
  rewrite Hb in Hb1. injection Hb1 as <-.
  assert (forall b' v' k' c' req,
      heap (cancel f w1) !! b' = Some v' -> client v' = Some k' ->
      ctx v' = Some c' -> derivedFrom (CancelCtx f p) c' ->
      Call b' req (cancel f w1) =
        (Return (JNull, Some ContextErr), slept (slowmotion v') (cancel f w1)))
    as Hdead.
  { intros b' v' k' c' req Hb' Hk' Hc' Hder'.
    apply (Call_done _ _ _ _ k' c'); try done.
    apply (ctxDone_derivedFrom _ _ _ _ Hder'). apply isDone_cancel_own. }
  assert (heap (cancel f w1) !! b = Some v) as Hb2 by (simpl; by rewrite Hh1).
  split; [|split; [|split; [|split]]].
  - intros b' v' k' c' req Hb' Hk' Hc' Hder'. eexists.
    by rewrite (Hdead _ _ _ _ _ Hb' Hk' Hc' Hder').
  - eexists. unfold CloseE, bind.
    by rewrite (Hdead _ _ _ _ _ Hb2 Hk Hc Hder).
  - eexists. unfold Close, CloseE, bind.
    by rewrite (Hdead _ _ _ _ _ Hb2 Hk Hc Hder).
  - intros url. eexists. unfold PageE, bind.
    by rewrite (Hdead _ _ _ _ _ Hb2 Hk Hc Hder).
  - eexists. unfold PagesE, bind.
    by rewrite (Hdead _ _ _ _ _ Hb2 Hk Hc Hder).
Qed.

Lemma waiters_slept d w h :
  waiters (slept d w) !! h =
    settleOne (setNow (now w + Z.max 0 d) w) <$> waiters w !! h.
Proof. simpl. apply list_lookup_fmap. Qed.

Lemma settleOne_pending (w : World E) x :
  (wreturned x = true -> werr x = Some ContextErr) ->
  wctx (settleOne w x) = wctx x /\ wevent (settleOne w x) = wevent x /\
  (wreturned (settleOne w x) = true -> werr (settleOne w x) = Some ContextErr).
Proof.
  intros Herr. unfold settleOne. destruct (wreturned x) eqn:Hr; [auto|].
  simpl. destruct (nilObservable x); [by rewrite Hr|].
  destruct (isDone w (wctx x)); simpl; [auto|]. by rewrite Hr.
Qed.

Lemma settleOne_wobs (w : World E) x : wobs (settleOne w x) = wobs x.
Proof.
  unfold settleOne. destruct (wreturned x || nilObservable x); [done|].
  by destruct (isDone w (wctx x)).
Qed.

Lemma settleOne_done (w : World E) x :
  nilObservable x = false ->
  isDone w (wctx x) = true ->
  (wreturned x = true -> werr x = Some ContextErr) ->
  wreturned (settleOne w x) = true /\
  werr (settleOne w x) = Some ContextErr /\
  wevent (settleOne w x) = wevent x.
Proof.
  intros Hn Hd Herr. unfold settleOne. rewrite Hn.
  destruct (wreturned x) eqn:Hr; simpl.
  - by rewrite Hr, Herr.
  - by rewrite Hd.
Qed.

(** X11.  [CloseE] unblocks what waits under the scope it ends: a wait
    registered with [WaitEventE] on the handle, with no event published in
    between, has returned once a successful [CloseE] returns; its accessor
    yields a nil event with the context error and it is no longer
    registered. *)
Theorem CloseE_unblocks_wait b v f p c o filter w h fc w1 w2 :
  heap w !! b = Some v -> ctx v = Some c -> event v = Some o ->
  close v = Some f -> derivedFrom (CancelCtx f p) c ->
  WaitEventE b filter w = (Return (h, fc), w1) ->
  CloseE b w1 = (Return None, w2) ->
  waitE h w2 = Some (None, Some ContextErr) /\ registered h w2 = false.
Proof.
  intros Hb Hc Ho Hf Hder Hwait Hclose.
  destruct (WaitEventE_run b filter w v c Hb Hc) as (w1' & Hrun & _ & _ & Hx).
  rewrite Ho in Hx.
  rewrite Hrun in Hwait. injection Hwait as <- <- <-.
  assert (heap w1' = heap w) as Hheap.
  { revert Hrun. unfold WaitEventE, bind, load, WithCancel.
    rewrite Hb, Hc. simpl. by intros [= <-]. }
  destruct (CloseE_ok_inv _ _ _ Hclose) as (j & wc & v0 & Hcall & Hb0 & ->).
  rewrite Hheap, Hb in Hb0. injection Hb0 as <-. rewrite Hf.
  destruct (Call_inv _ _ _ _ _ Hcall) as (v1 & k & sc & Hb1 & Hk & Hc1).
  rewrite Hheap, Hb in Hb1. injection Hb1 as <-.
  rewrite (Call_run _ _ _ v) in Hcall by (by rewrite Hheap).
  rewrite Hk, Hc1 in Hcall. apply clientCall_ok in Hcall as (_ & _ & ->).
  set (x0 := {| wobs := Some o; wctx := CancelCtx (nextCtx w) c;
                wfilter := filter;
                wevent := None; werr := None; wreturned := false |}) in *.
  assert (exists y, waiters (cancel f (answered (ClientCall k None browserClose)
                                         (slept (slowmotion v) w1')))
                      !! length (waiters w) = Some y /\
                    wctx y = CancelCtx (nextCtx w) c /\ wevent y = None /\
                    wreturned y = true /\ werr y = Some ContextErr)
    as (y & Hy & _ & Hev & Hret & Herr).
  { rewrite waiters_cancel.
    change (waiters (answered _ ?w')) with (waiters w').
    rewrite waiters_slept, Hx. simpl. eexists. split; [reflexivity|].
    destruct (settleOne_pending w x0) as (Hc2 & He2 & Hr2); [done|].
    destruct (settleOne_pending (setNow (now w1' + Z.max 0 (slowmotion v)) w1')
                (settleOne w x0)) as (Hc3 & He3 & Hr3); [done|].
    rewrite Hc2 in Hc3. rewrite He2 in He3.
    match goal with |- context [settleOne ?wc (settleOne ?ws (settleOne w x0))] =>
      destruct (settleOne_done wc (settleOne ws (settleOne w x0)))
        as (Hr4 & He4 & Hv4);
      [ by apply nilObservable_Some with o; rewrite !settleOne_wobs
      | | exact Hr3
       | destruct (settleOne_pending wc (settleOne ws (settleOne w x0)) Hr3)
           as (Hc4 & _ & _) ]
    end.
    { rewrite Hc3.
      assert (derivedFrom (CancelCtx f p) (CancelCtx (nextCtx w) c)) as Hd2
        by (by right).
      apply (ctxDone_derivedFrom _ _ _ _ Hd2). simpl.
      rewrite bool_decide_eq_true_2; [done|set_solver]. }
    rewrite Hc4, Hc3, Hv4, He3. done. }
  split.
  - unfold waitE. by rewrite Hy, Hret, Hev, Herr.
  - unfold registered. by rewrite Hy, Hret.
Qed.

End AfterClose.

(** ** Scopes of derived handles *)
Section DerivedScopes.
Context {E : Type} `{!Remote E}.
Implicit Types (w : World E) (v : Browser) (x : Waiter).

(** A wait started on a handle is released by whatever ends the handle's
    scope: after a cancel call under which the scope is done, and with no
    event on the observable passing the filter before it, the goroutine has
    returned the cancellation error.  Until then, under a live scope, the
    accessor blocks. *)
Lemma WaitEventE_released bd vd cd o filter g evs w :
  heap w !! bd = Some vd -> ctx vd = Some cd -> event vd = Some o ->
  (forall oe, In oe evs -> fst oe = o -> filter (snd oe) = false) ->
  isDone (cancel g w) cd = true ->
  exists h fc w3,
    WaitEventE bd filter w = (Return (h, fc), w3) /\
    (isDone w cd = false -> nextCtx w ∉ cancelled w ->
     registered h (publishAll evs w3) = true /\
     waitE h (publishAll evs w3) = None) /\
    registered h (cancel g (publishAll evs w3)) = false /\
    exists ev, waitE h (cancel g (publishAll evs w3)) =
                 Some (ev, Some ContextErr).
Proof.
  intros Hb Hc Ho Hno Hdone.
  destruct (WaitEventE_run bd filter w vd cd Hb Hc)
    as (w3 & Hrun & Hcan & Hnow & Hx).
  rewrite Ho, settleOne_started in Hx.
  exists (length (waiters w)), (nextCtx w), w3. split; [done|].
  destruct (publishAll_unmatched evs w3 _ _ Hx)
    as (x' & Hx' & Hc' & Ho' & He').
  { intros oe Hin Hobs.
    destruct (isDone w _); simpl in *; apply Hno; congruence. }
  { by destruct (isDone w _). }
  assert (wctx x' = CancelCtx (nextCtx w) cd) as Hctx.
  { rewrite Hc'. by destruct (isDone w _). }
  assert (wobs x' = Some o) as Hobs.
  { rewrite Ho'. by destruct (isDone w _). }
  assert (exists y, waiters (cancel g (publishAll evs w3))
                      !! length (waiters w) = Some y /\
                    wreturned y = true /\ werr y = Some ContextErr)
    as (y & Hy & Hyr & Hye).
  { rewrite waiters_cancel, Hx'. simpl. eexists. split; [reflexivity|].
    unfold settleOne. destruct (wreturned x') eqn:Hr; [auto|].
    rewrite (nilObservable_Some x' o Hobs). simpl. rewrite Hctx.
    assert (isDone (cancel g (publishAll evs w3)) (CancelCtx (nextCtx w) cd)
            = true) as Hd.
    { rewrite isDone_cancel. simpl.
      rewrite isDone_cancel in Hdone.
      replace (cancelled (publishAll evs w3)) with (cancelled w).
      2:{ rewrite <- Hcan. clear. revert w3.
          induction evs as [|oe evs IH]; intros w3; [done|].
          simpl. by rewrite <- IH. }
      replace (now (publishAll evs w3)) with (now w).
      2:{ rewrite <- Hnow. clear. revert w3.
          induction evs as [|oe evs IH]; intros w3; [done|].
          simpl. by rewrite <- IH. }
      rewrite Hdone. apply orb_true_r. }
    unfold isDone in Hd. simpl in Hd. unfold isDone. simpl. by rewrite Hd. }
  split; [|split].
  - intros Hlive Hfresh.
    assert (isDone w (CancelCtx (nextCtx w) cd) = false) as Hlive0.
    { unfold isDone in *. simpl. rewrite Hlive.
      by rewrite bool_decide_eq_false_2. }
    assert (isDone w3 (CancelCtx (nextCtx w) cd) = false) as Hlive1.
    { unfold isDone in *. by rewrite Hcan, Hnow. }
    rewrite Hlive0 in Hx.
    destruct (publishAll_pending evs w3 _ _ o Hx)
      as (z & Hz & Hzr & Hzo & _); try done.
    unfold registered, waitE.
    by rewrite Hz, Hzr, (nilObservable_Some z o Hzo).
  - unfold registered. by rewrite Hy, Hyr.
  - exists (wevent y). unfold waitE. by rewrite Hy, Hyr, Hye.
Qed.

(** C2 (as amended).  The scope of a handle derived with [Timeout] is a child
    of the scope of [b]: whenever the scope of [b] is done so is the child's,
    and calling the child's cancel function ends the child and leaves the
    scope of [b] as it was.  What runs under the child is released when a
    cancel call ends the scope of [b]: a wait started with [WaitEventE]
    under the child, blocked until then, returns the cancellation error and
    is no longer registered, and a control call under the child returns the
    cancellation error without reaching the endpoint.  The scope of a handle
    derived with [Context] is the supplied context itself: it is done with
    the scope of [b] when that context was derived from it, and a cancel
    call reaches it only when the supplied context carries that cancel
    function. *)
Theorem derived_scope b v c w :
  heap w !! b = Some v -> ctx v = Some c -> ctxBelow (nextCtx w) c ->
  (forall d, exists n w' vd cd f,
      Timeout b d w = (Return n, w') /\
      heap w' !! n = Some vd /\ ctx vd = Some cd /\ timeoutCancel vd = Some f /\
      (forall w2 : World E, isDone w2 c = true -> isDone w2 cd = true) /\
      (forall (w2 : World E) k tg req,
          isDone w2 c = true ->
          clientCall (Some k) (Some cd) tg req w2 =
            (Return (JNull, Some ContextErr), w2)) /\
      (forall w2 : World E, isDone (cancel f w2) cd = true /\
                            isDone (cancel f w2) c = isDone w2 c) /\
      (forall (w2 : World E) bd vd' o filter g evs,
          heap w2 !! bd = Some vd' -> ctx vd' = Some cd -> event vd' = Some o ->
          (forall oe, In oe evs -> fst oe = o -> filter (snd oe) = false) ->
          isDone (cancel g w2) c = true ->
          exists h fc w3,
            WaitEventE bd filter w2 = (Return (h, fc), w3) /\
            (isDone w2 cd = false -> nextCtx w2 ∉ cancelled w2 ->
             registered h (publishAll evs w3) = true /\
             waitE h (publishAll evs w3) = None) /\
            registered h (cancel g (publishAll evs w3)) = false /\
            exists ev, waitE h (cancel g (publishAll evs w3)) =
                         Some (ev, Some ContextErr)) /\
      (forall (w2 : World E) bd vd' k req g,
          heap w2 !! bd = Some vd' -> ctx vd' = Some cd -> client vd' = Some k ->
          isDone (cancel g w2) c = true ->
          exists w3,
            Call bd req (cancel g w2) = (Return (JNull, Some ContextErr), w3) /\
            wire w3 = wire w2)) /\
  (forall c', exists n w' vd,
      Context b (Some c') w = (Return n, w') /\
      heap w' !! n = Some vd /\ ctx vd = Some c' /\
      (derivedFrom c c' ->
       forall w2 : World E, isDone w2 c = true -> isDone w2 c' = true) /\
      (forall (w2 : World E) g,
          carriesCancel g c' = false ->
          isDone (cancel g w2) c' = isDone w2 c')).
Proof.
  intros Hb Hc Hbelow. pose proof (lookup_lt_Some _ _ _ Hb) as Hlt. split.
  - intros d. eexists _, _, _, _, (nextCtx w).
    rewrite (Timeout_run _ _ _ _ _ Hb Hc). split; [reflexivity|]. simpl.
    split.
    { rewrite lookup_app_r by (by rewrite length_insert).
      by rewrite length_insert, Nat.sub_diag. }
    split; [reflexivity|split; [reflexivity|]].
    assert (forall w2 : World E, isDone w2 c = true ->
              isDone w2 (TimerCtx (nextCtx w) (now w + d) c) = true) as Hdown.
    { intros w2 Hd. unfold isDone in *. simpl. rewrite Hd. apply orb_true_r. }
    split; [exact Hdown|]. split; [|split; [|split]].
    + intros w2 k tg req Hd. unfold clientCall. by rewrite (Hdown w2 Hd).
    + intros w2. split; [apply isDone_cancel_timer|].
      by apply isDone_cancel_below.
    + intros w2 bd vd' o filter g evs Hbd Hcd Hod Hno Hdone.
      apply (WaitEventE_released bd vd' _ o); try done. by apply Hdown.
    + intros w2 bd vd' k req g Hbd Hcd Hkd Hdone. eexists.
      rewrite (Call_done bd req (cancel g w2) vd' k _ Hbd Hkd Hcd)
        by (by apply Hdown).
      split; [reflexivity|]. by rewrite slept_wire.
  - intros c'. eexists _, _, _. rewrite (Context_run _ _ _ _ Hb).
    split; [reflexivity|]. simpl.
    split; [by rewrite lookup_app_r, Nat.sub_diag|].
    split; [reflexivity|]. split.
    + intros Hd w2. by apply ctxDone_derivedFrom.
    + intros w2 g Hg. by apply isDone_cancel_foreign.
Qed.

End DerivedScopes.

Lemma derived_scope_witness :
  exists n w' vd cd f,
    Timeout 0%nat 5 (connectedWorld stub0) = (Return n, w') /\
    heap w' !! n = Some vd /\ ctx vd = Some cd /\ timeoutCancel vd = Some f /\
    isDone (cancel f w') cd = true /\
    isDone (cancel f w') (CancelCtx 0 Background) = false /\
    exists h fc w3,
      WaitEventE n (MethodFilter "B") w' = (Return (h, fc), w3) /\
      waitE h w3 = None /\
      waitE h (cancel 0%nat w3) = Some (None, Some ContextErr).
Proof.
  destruct (derived_scope 0%nat connectedBrowser (CancelCtx 0 Background)
              (connectedWorld stub0) eq_refl eq_refl)
    as [HT _]; [simpl; split; [lia|exact I]|].
  destruct (HT 5)
    as (n & w' & vd & cd & f & H1 & H2 & H3 & H4 & _ & _ & H6 & H7 & _).
  exists n, w', vd, cd, f. repeat (split; [assumption|]).
  destruct (H6 w') as [Hd Hp]. split; [exact Hd|].
  assert (n = 1%nat /\ w' = snd (Timeout 0%nat 5 (connectedWorld stub0)))
    as [-> ->] by (by injection H1 as <- <-).
  split; [rewrite Hp; vm_compute; reflexivity|].
  assert (vd = withCtx (Some cd) (withTimeoutCancel (Some 1%nat) connectedBrowser)
          /\ cd = TimerCtx 1 5 (CancelCtx 0 Background)) as [-> ->].
  { vm_compute in H2. injection H2 as <-. vm_compute in H3.
    injection H3 as <-. by split. }
  destruct (H7 (snd (Timeout 0%nat 5 (connectedWorld stub0))) 1%nat _ 0%nat
              (MethodFilter "B") 0%nat [] H2 eq_refl eq_refl)
    as (h & fc & w3 & Hrun & Hblocked & _ & ev & Hev);
    [by intros ? []|vm_compute; reflexivity|].
  exists h, fc, w3. split; [exact Hrun|].
  change (publishAll [] w3) with w3 in Hblocked, Hev.
  destruct Hblocked as [_ Hb]; [vm_compute; reflexivity|vm_compute; set_solver|].
  split; [exact Hb|]. rewrite Hev. f_equal. f_equal.
  vm_compute in Hrun. injection Hrun as <- <- <-.
  vm_compute in Hev. by injection Hev as ->.
Defined.

Lemma closed_handle_is_dead_witness :
  exists w3,
    CloseE 0%nat (snd (CloseE 0%nat (connectedWorld stub0))) =
      (Return (Some ContextErr), w3).
Proof.
  destruct (closed_handle_is_dead 0%nat connectedBrowser 0%nat Background
              (CancelCtx 0 Background) (connectedWorld stub0)
              (snd (CloseE 0%nat (connectedWorld stub0))))
    as (_ & (w3 & H & _) & _);
    [reflexivity|reflexivity|reflexivity|by left|vm_compute; reflexivity|].
  by exists w3.
Defined.

Lemma CloseE_unblocks_wait_witness :
  exists h fc w1 w2,
    WaitEventE 0%nat (MethodFilter "B") (connectedWorld stub0) =
      (Return (h, fc), w1) /\
    CloseE 0%nat w1 = (Return None, w2) /\
    waitE h w2 = Some (None, Some ContextErr).
Proof.
  set (W := connectedWorld stub0).
  set (w1 := snd (WaitEventE 0%nat (MethodFilter "B") W)).
  set (w2 := snd (CloseE 0%nat w1)).
  exists 0%nat, 1%nat, w1, w2.
  split; [reflexivity|]. split; [vm_compute; reflexivity|].
  destruct (CloseE_unblocks_wait 0%nat connectedBrowser 0%nat Background
              (CancelCtx 0 Background) 0%nat (MethodFilter "B") W
              0%nat 1%nat w1 w2) as [H _];
    [reflexivity|reflexivity|reflexivity|reflexivity|by left
    |vm_compute; reflexivity|vm_compute; reflexivity|].
  exact H.
Defined.

(** ** Waits *)
Section Waits.
Context {E : Type} `{!Remote E}.
Implicit Types (w : World E) (v : Browser) (x : Waiter).

(** A waiting goroutine under a live scope returns on the first event on
    its observable that passes its filter, with that event and a nil error,
    and keeps waiting while there is none. *)
Lemma publishAll_first_match evs :
  forall w h x o,
    waiters w !! h = Some x -> wreturned x = false -> wobs x = Some o ->
    isDone w (wctx x) = false ->
    exists x',
      waiters (publishAll (map (pair o) evs) w) !! h = Some x' /\
      match List.find (wfilter x) evs with
      | Some e => wreturned x' = true /\ wevent x' = Some e /\ werr x' = None
      | None => wreturned x' = false /\ wctx x' = wctx x /\ wobs x' = wobs x /\
                wfilter x' = wfilter x
      end.
Proof.
  induction evs as [|e evs IH]; intros w h x o Hx Hr Ho Hd.
  { by exists x. }
  simpl.
  assert (waiters (Publish o e w) !! h = Some (untilEvent e x)) as Hx1.
  { rewrite waiters_Publish, Hx. simpl.
    rewrite receive_running, Hd, (subscribed_Some x o o Ho), Nat.eqb_refl;
      [done..|by apply nilObservable_Some with o]. }
  destruct (wfilter x e) eqn:He.
  - exists (untilEvent e x). split; [|by simpl].
    apply publishAll_returned; [done|]. by simpl.
  - destruct (IH (Publish o e w) h (untilEvent e x) o Hx1)
      as (x' & Hx' & Hm); [by simpl|done|done|].
    exists x'. split; [done|]. simpl in Hm.
    destruct (List.find (wfilter x) evs); [done|]. by destruct Hm as (? & ? & ? & ?).
Qed.

(** X12.  On a handle with a live scope and an event bus, the accessor of
    [WaitEventE] returns the first published event that passes the filter,
    with a nil error; events after it change nothing, and while no event
    has passed the filter the accessor blocks. *)
Theorem WaitEventE_first_match b v c o filter w :
  heap w !! b = Some v -> ctx v = Some c -> event v = Some o ->
  isDone w c = false -> nextCtx w ∉ cancelled w ->
  exists h f w1,
    WaitEventE b filter w = (Return (h, f), w1) /\
    forall evs,
      waitE h (publishAll (map (pair o) evs) w1) =
        match List.find filter evs with
        | Some e => Some (Some e, None)
        | None => None
        end.
Proof.
  intros Hb Hc Ho Hlive Hfresh.
  destruct (WaitEventE_run b filter w v c Hb Hc)
    as (w1 & Hrun & Hcan & Hnow & Hx).
  exists (length (waiters w)), (nextCtx w), w1. split; [done|].
  assert (isDone w1 (CancelCtx (nextCtx w) c) = false) as Hlive1.
  { unfold isDone in *. rewrite Hcan, Hnow. simpl. rewrite Hlive.
    by rewrite bool_decide_eq_false_2. }
  assert (isDone w (CancelCtx (nextCtx w) c) = false) as Hlive0.
  { unfold isDone in *. simpl. rewrite Hlive.
    by rewrite bool_decide_eq_false_2. }
  rewrite Ho, settleOne_started, Hlive0 in Hx.
  intros evs.
  destruct (publishAll_first_match evs w1 _ _ o Hx) as (x' & Hx' & Hm);
    [done|done|done|].
  simpl in Hx', Hm. unfold waitE. rewrite Hx'.
  destruct (List.find filter evs) as [e|].
  - destruct Hm as (-> & -> & ->). done.
  - destruct Hm as (-> & _). done.
Qed.

Lemma settleOne_live (w : World E) x :
  wreturned x = false -> isDone w (wctx x) = false -> settleOne w x = x.
Proof.
  intros Hr Hd. unfold settleOne. rewrite Hr, Hd. simpl.
  by destruct (nilObservable x).
Qed.

(** What WaitEventE does to the world. *)
Lemma WaitEventE_facts b filter w v c :
  heap w !! b = Some v -> ctx v = Some c ->
  exists w1,
    WaitEventE b filter w = (Return (length (waiters w), nextCtx w), w1) /\
    heap w1 = heap w /\ cancelled w1 = cancelled w /\ now w1 = now w /\
    nextCtx w1 = S (nextCtx w) /\
    length (waiters w1) = S (length (waiters w)) /\
    waiters w1 !! length (waiters w) =
      Some (settleOne w
              {| wobs := event v; wctx := CancelCtx (nextCtx w) c;
                 wfilter := filter;
                 wevent := None; werr := None; wreturned := false |}) /\
    (forall h x, waiters w !! h = Some x ->
                 waiters w1 !! h = Some (settleOne w x)).
Proof.
  intros Hb Hc. unfold WaitEventE, bind, load, WithCancel.
  rewrite Hb, Hc. simpl. eexists. split; [reflexivity|].
  simpl. repeat split.
  - rewrite length_fmap, length_app. simpl. lia.
  - rewrite list_lookup_fmap, lookup_app_r, Nat.sub_diag by done. done.
  - intros h x Hx. pose proof (lookup_lt_Some _ _ _ Hx).
    rewrite list_lookup_fmap, lookup_app_l, Hx by done. done.
Qed.

(** X13.  Two waits registered on one handle are independent: each has a
    scope of its own under the handle's scope, so cancelling the first makes
    the first return the context error and leaves the second waiting.
    Whatever is published on the observable afterwards, the second returns
    the first of those events that passes its own filter, with a nil error,
    and blocks while none does; the first keeps its cancellation outcome. *)
Theorem sibling_waits_independent b v c o filter1 filter2 w :
  heap w !! b = Some v -> ctx v = Some c -> event v = Some o ->
  isDone w c = false -> ctxBelow (nextCtx w) c ->
  (forall id, id ∈ cancelled w -> (id < nextCtx w)%nat) ->
  exists h1 f1 w1 h2 f2 w2,
    WaitEventE b filter1 w = (Return (h1, f1), w1) /\
    WaitEventE b filter2 w1 = (Return (h2, f2), w2) /\
    h1 <> h2 /\ f1 <> f2 /\
    waitE h1 (cancel f1 w2) = Some (None, Some ContextErr) /\
    waitE h2 (cancel f1 w2) = None /\
    forall evs,
      waitE h2 (publishAll (map (pair o) evs) (cancel f1 w2)) =
        match List.find filter2 evs with
        | Some e => Some (Some e, None)
        | None => None
        end /\
      waitE h1 (publishAll (map (pair o) evs) (cancel f1 w2)) =
        Some (None, Some ContextErr).
Proof.
  intros Hb Hc Ho Hlive Hbelow Hcan.
  assert (nextCtx w ∉ cancelled w) as Hn by (intros Hin; apply Hcan in Hin; lia).
  assert (S (nextCtx w) ∉ cancelled w) as HSn
    by (intros Hin; apply Hcan in Hin; lia).
  destruct (WaitEventE_facts b filter1 w v c Hb Hc)
    as (w1 & Hrun1 & Hh1 & Hcan1 & Hnow1 & Hnext1 & Hlen1 & Hx1 & _).
  assert (heap w1 !! b = Some v) as Hb1 by (by rewrite Hh1).
  destruct (WaitEventE_facts b filter2 w1 v c Hb1 Hc)
    as (w2 & Hrun2 & _ & Hcan2 & Hnow2 & _ & _ & Hx2 & Hold2).
  rewrite Ho in Hx1, Hx2.
  rewrite Hnext1, Hlen1 in Hrun2, Hx2.
  assert (forall w' : World E, cancelled w' = cancelled w -> now w' = now w ->
            isDone w' (CancelCtx (nextCtx w) c) = false /\
            isDone w' (CancelCtx (S (nextCtx w)) c) = false) as Hlive'.
  { intros w' Hc' Hn'. unfold isDone in *. simpl. rewrite Hc', Hn', Hlive.
    by rewrite !bool_decide_eq_false_2. }
  rewrite settleOne_live in Hx1 by (try done; by apply Hlive').
  rewrite settleOne_live in Hx2 by (try done; by apply Hlive').
  pose proof (Hold2 _ _ Hx1) as Hx21.
  rewrite settleOne_live in Hx21 by (try done; by apply Hlive').
  assert (cancelled w2 = cancelled w) as Hcan2' by congruence.
  assert (now w2 = now w) as Hnow2' by congruence.
  set (x1 := {| wobs := Some o; wctx := CancelCtx (nextCtx w) c;
                wfilter := filter1;
                wevent := None; werr := None; wreturned := false |}) in *.
  set (x2 := {| wobs := Some o; wctx := CancelCtx (S (nextCtx w)) c;
                wfilter := filter2; wevent := None; werr := None;
                wreturned := false |}) in *.
  assert (isDone (cancel (nextCtx w) w2) (CancelCtx (S (nextCtx w)) c) = false)
    as Hlive2.
  { rewrite isDone_cancel. simpl.
    rewrite (ctxDone_cancel_other _ _ _ _ Hbelow), Hcan2', Hnow2'.
    unfold isDone in Hlive. rewrite Hlive.
    rewrite bool_decide_eq_false_2; [done|].
    rewrite elem_of_union, elem_of_singleton. intros [?|?]; [lia|done]. }
  assert (waiters (cancel (nextCtx w) w2) !! length (waiters w) =
            Some (untilDone x1)) as Hc1.
  { rewrite waiters_cancel, Hx21. simpl. unfold settleOne. simpl.
    change (isDone _ (CancelCtx (nextCtx w) c))
      with (isDone (cancel (nextCtx w) w2) (CancelCtx (nextCtx w) c)).
    by rewrite isDone_cancel_own. }
  assert (waiters (cancel (nextCtx w) w2) !! S (length (waiters w)) = Some x2)
    as Hc2.
  { rewrite waiters_cancel, Hx2. simpl. unfold settleOne. simpl.
    change (isDone _ (CancelCtx (S (nextCtx w)) c))
      with (isDone (cancel (nextCtx w) w2) (CancelCtx (S (nextCtx w)) c)).
    by rewrite Hlive2. }
  exists (length (waiters w)), (nextCtx w), w1,
         (S (length (waiters w))), (S (nextCtx w)), w2.
  split; [done|]. split; [done|]. split; [lia|]. split; [lia|].
  split; [unfold waitE; by rewrite Hc1|].
  split; [unfold waitE; by rewrite Hc2|].
  intros evs. split.
  - destruct (publishAll_first_match evs (cancel (nextCtx w) w2) _ x2 o Hc2)
      as (x' & Hx' & Hm); [done|done|exact Hlive2|].
    unfold waitE. rewrite Hx'. change (wfilter x2) with filter2 in Hm.
    destruct (List.find filter2 evs) as [e|].
    + destruct Hm as (-> & -> & ->). done.
    + destruct Hm as (-> & _). done.
  - unfold waitE.
    by rewrite (publishAll_returned _ _ _ (untilDone x1) Hc1 eq_refl).
Qed.

(** X14.  The accessor returned by [WaitEvent] aborts once the wait was
    cancelled: after [cancel], calling it panics with the context error
    instead of returning a nil event.  Under a live scope, whatever is
    published on the observable, it returns the first of those events whose
    method equals [name], and blocks while there is none. *)
Theorem WaitEvent_accessor b v c o name w :
  heap w !! b = Some v -> ctx v = Some c -> event v = Some o ->
  exists h f w1,
    WaitEvent b name w = (Return (h, f), w1) /\
    wait h (cancel f w1) = Some (Panicked (ErrPanic ContextErr)) /\
    (isDone w c = false -> nextCtx w ∉ cancelled w ->
     wait h w1 = None /\
     forall evs,
       wait h (publishAll (map (pair o) evs) w1) =
         match List.find (fun e => String.eqb (evMethod e) name) evs with
         | Some e => Some (Return (Some e))
         | None => None
         end).
Proof.
  intros Hb Hc Ho. unfold WaitEvent.
  destruct (WaitEventE_run b (MethodFilter name) w v c Hb Hc)
    as (w1 & Hrun & Hcan & Hnow & Hx).
  rewrite Ho in Hx.
  exists (length (waiters w)), (nextCtx w), w1. split; [done|]. split.
  - unfold wait, waitE. rewrite waiters_cancel, Hx. simpl.
    match goal with |- context [settleOne ?wc (settleOne w ?x0)] =>
      destruct (settleOne_pending w x0) as (Hc2 & _ & Hr2); [done|];
      destruct (settleOne_done wc (settleOne w x0)) as (Hr4 & He4 & _);
      [by apply nilObservable_Some with o; rewrite settleOne_wobs
      |rewrite Hc2; unfold isDone; simpl;
       rewrite bool_decide_eq_true_2; [done|set_solver]
      |exact Hr2|]
    end.
    by rewrite Hr4, He4.
  - intros Hlive Hfresh.
    assert (isDone w1 (CancelCtx (nextCtx w) c) = false) as Hlive1.
    { unfold isDone in *. rewrite Hcan, Hnow. simpl. rewrite Hlive.
      by rewrite bool_decide_eq_false_2. }
    assert (isDone w (CancelCtx (nextCtx w) c) = false) as Hlive0.
    { unfold isDone in *. simpl. rewrite Hlive.
      by rewrite bool_decide_eq_false_2. }
    rewrite settleOne_started, Hlive0 in Hx. split.
    + unfold wait, waitE. by rewrite Hx.
    + intros evs.
      destruct (publishAll_first_match evs w1 _ _ o Hx) as (x' & Hx' & Hm);
        [done|done|done|].
      unfold wait, waitE. rewrite Hx'.
      simpl in Hm. unfold MethodFilter in Hm.
      destruct (List.find _ evs) as [e|].
      * destruct Hm as (-> & -> & ->). done.
      * destruct Hm as (-> & _). done.
Qed.

End Waits.

Lemma WaitEventE_first_match_witness :
  exists h f w1,
    WaitEventE 0%nat (MethodFilter "B") (connectedWorld stub0) =
      (Return (h, f), w1) /\
    waitE h (publishAll
               [(0%nat, {| evMethod := "A"; evParams := JNull |});
                (0%nat, {| evMethod := "B"; evParams := JTrue |});
                (0%nat, {| evMethod := "B"; evParams := JFalse |})] w1) =
      Some (Some {| evMethod := "B"; evParams := JTrue |}, None).
Proof.
  destruct (WaitEventE_first_match 0%nat connectedBrowser (CancelCtx 0 Background)
              0%nat (MethodFilter "B") (connectedWorld stub0)
              eq_refl eq_refl eq_refl)
    as (h & f & w1 & Hrun & Hall); [vm_compute; reflexivity|set_solver|].
  exists h, f, w1. split; [exact Hrun|].
  exact (Hall [{| evMethod := "A"; evParams := JNull |};
               {| evMethod := "B"; evParams := JTrue |};
               {| evMethod := "B"; evParams := JFalse |}]).
Defined.

Lemma sibling_waits_independent_witness :
  exists h1 f1 w1 h2 f2 w2,
    WaitEventE 0%nat (MethodFilter "A") (connectedWorld stub0) =
      (Return (h1, f1), w1) /\
    WaitEventE 0%nat (MethodFilter "B") w1 = (Return (h2, f2), w2) /\
    waitE h1 (cancel f1 w2) = Some (None, Some ContextErr) /\
    waitE h2 (cancel f1 w2) = None /\
    waitE h2 (publishAll
                [(0%nat, {| evMethod := "A"; evParams := JNull |});
                 (0%nat, {| evMethod := "B"; evParams := JTrue |});
                 (0%nat, {| evMethod := "B"; evParams := JFalse |})]
                (cancel f1 w2)) =
      Some (Some {| evMethod := "B"; evParams := JTrue |}, None).
Proof.
  destruct (sibling_waits_independent 0%nat connectedBrowser
              (CancelCtx 0 Background) 0%nat (MethodFilter "A")
              (MethodFilter "B") (connectedWorld stub0)
              eq_refl eq_refl eq_refl)
    as (h1 & f1 & w1 & h2 & f2 & w2 & H1 & H2 & _ & _ & H3 & H4 & H5).
  - vm_compute. reflexivity.
  - simpl. split; [lia|exact I].
  - intros id Hin. simpl in Hin. set_solver.
  - exists h1, f1, w1, h2, f2, w2. repeat (split; [assumption|]).
    exact (proj1 (H5 [{| evMethod := "A"; evParams := JNull |};
                      {| evMethod := "B"; evParams := JTrue |};
                      {| evMethod := "B"; evParams := JFalse |}])).
Defined.

Lemma WaitEvent_accessor_witness :
  exists h f w1,
    WaitEvent 0%nat "B" (connectedWorld stub0) = (Return (h, f), w1) /\
    wait h (cancel f w1) = Some (Panicked (ErrPanic ContextErr)) /\
    wait h (publishAll
              [(0%nat, {| evMethod := "A"; evParams := JNull |});
               (0%nat, {| evMethod := "B"; evParams := JTrue |});
               (0%nat, {| evMethod := "B"; evParams := JFalse |})] w1) =
      Some (Return (Some {| evMethod := "B"; evParams := JTrue |})).
Proof.
  destruct (WaitEvent_accessor 0%nat connectedBrowser (CancelCtx 0 Background)
              0%nat "B" (connectedWorld stub0) eq_refl eq_refl eq_refl)
    as (h & f & w1 & H1 & H2 & H3).
  exists h, f, w1. split; [exact H1|]. split; [exact H2|].
  destruct H3 as [_ H3]; [vm_compute; reflexivity|set_solver|].
  exact (H3 [{| evMethod := "A"; evParams := JNull |};
             {| evMethod := "B"; evParams := JTrue |};
             {| evMethod := "B"; evParams := JFalse |}]).
Defined.

(** ** Where PagesE, PageE and Timeout stop *)
Section Edges.
Context {E : Type} `{!Remote E}.
Implicit Types (w : World E) (v : Browser).

Lemma pagesLoop_no_pages b targets :
  forall acc w,
    List.filter isPageTarget targets = [] ->
    pagesLoop b targets acc w = (Return (Some acc, None), w).
Proof.
  induction targets as [|t rest IH]; intros acc w Hnone; [done|].
  simpl in *. destruct (isPageTarget t); [done|]. simpl. by apply IH.
Qed.

(** X15.  [PagesE] on the edges of its reply.  When the [Target.getTargets]
    call fails, [PagesE] returns nil with that error and constructs no page.
    When the call succeeds and the reply lists no page-type target, be it
    because "targetInfos" is missing, empty, or holds only other types,
    [PagesE] returns an empty non-nil list with a nil error and issues no
    further call. *)
Theorem PagesE_edges b w :
  (forall j e w1,
      Call b getTargets w = (Return (j, Some e), w1) ->
      PagesE b w = (Return (None, Some e), w1)) /\
  (forall j w1,
      Call b getTargets w = (Return (j, None), w1) ->
      List.filter isPageTarget (Array (Get "targetInfos" j)) = [] ->
      PagesE b w = (Return (Some [], None), w1)) /\
  (forall j w1,
      Call b getTargets w = (Return (j, None), w1) ->
      Get "targetInfos" j = JNull ->
      PagesE b w = (Return (Some [], None), w1)).
Proof.
  split; [|split].
  - intros j e w1 Hcall. unfold PagesE, bind. by rewrite Hcall.
  - intros j w1 Hcall Hnone. unfold PagesE, bind. rewrite Hcall. simpl.
    by apply pagesLoop_no_pages.
  - intros j w1 Hcall Hnull. unfold PagesE, bind. rewrite Hcall. simpl.
    by rewrite Hnull.
Qed.

(** X16.  [PageE] stops at the first step that fails and issues nothing
    after it.  When the create-target call fails, the result is nil with
    that error and the world is as the call left it.  When the target was
    created but constructing the page fails, the result is nil with that
    error and no navigate call is issued: the wire holds the create exchange
    and at most the failed attach exchange. *)
Theorem PageE_stops_at_first_failure b url w :
  (forall j e w1,
      Call b createTarget w = (Return (j, Some e), w1) ->
      PageE b url w = (Return (None, Some e), w1)) /\
  (forall j w1 p e w2,
      Call b createTarget w = (Return (j, None), w1) ->
      page b (targetIdOf j) w1 = (Return (p, Some e), w2) ->
      PageE b url w = (Return (None, Some e), w2) /\
      exists k tl,
        wire w2 = wire w ++ (ClientCall k None createTarget, Ok j) :: tl /\
        (tl = [] \/
         tl = [(ClientCall k (Some (targetIdOf j)) attachToTarget, Fail e)])).
Proof.
  split.
  - intros j e w1 Hcall. unfold PageE, bind. by rewrite Hcall.
  - intros j w1 p e w2 Hcall Hpage. split.
    { unfold PageE, bind. rewrite Hcall. simpl. by rewrite Hpage. }
    apply Call_ok in Hcall as (v & k & sc & Hb & Hk & Hc & Hh1 & Hw1).
    rewrite (page_run _ _ _ v) in Hpage by (by rewrite Hh1).
    rewrite Hk, Hc in Hpage.
    destruct (clientCall _ _ _ _ _) as [[[ja ea]|x] w'] eqn:Hattach;
      [|discriminate].
    simpl in Hpage. injection Hpage as _ -> ->.
    apply clientCall_err in Hattach as [(_ & _ & ->)|(_ & Hrep & ->)].
    + exists k, []. rewrite slept_wire, Hw1. split; [done|by left].
    + exists k, [(ClientCall k (Some (targetIdOf j)) attachToTarget, Fail e)].
      rewrite answered_wire, slept_wire, Hrep, Hw1. split; [|by right].
      by rewrite <- app_assoc.
Qed.

(** X17.  The scope of a handle derived with [Timeout(d)] ends at its
    deadline: in any later world whose clock has reached the time of the
    call plus [d], every call through the derived handle returns the context
    error and nothing reaches the endpoint.  For [d <= 0] that is so at
    once.  Until then the derived scope is live as long as the scope of [b]
    is and its cancel function was not called. *)
Theorem Timeout_deadline b v c k w d :
  heap w !! b = Some v -> ctx v = Some c -> client v = Some k ->
  exists n w' vd cd,
    Timeout b d w = (Return n, w') /\
    heap w' !! n = Some vd /\ ctx vd = Some cd /\
    (forall (w2 : World E) req,
        heap w2 !! n = Some vd -> now w + d <= now w2 ->
        Call n req w2 =
          (Return (JNull, Some ContextErr), slept (slowmotion vd) w2)) /\
    (d <= 0 ->
     forall req, Call n req w' =
                   (Return (JNull, Some ContextErr), slept (slowmotion vd) w')) /\
    (forall w2 : World E,
        now w2 < now w + d -> isDone w2 c = false ->
        nextCtx w ∉ cancelled w2 -> isDone w2 cd = false).
Proof.
  intros Hb Hc Hk. pose proof (lookup_lt_Some _ _ _ Hb) as Hlt.
  eexists _, _, _, (TimerCtx (nextCtx w) (now w + d) c).
  rewrite (Timeout_run _ _ _ _ _ Hb Hc). split; [reflexivity|]. simpl.
  split.
  { rewrite lookup_app_r by (by rewrite length_insert).
    by rewrite length_insert, Nat.sub_diag. }
  split; [reflexivity|].
  assert (forall (w2 : World E) req,
            heap w2 !! length (heap w) =
              Some (withCtx (Some (TimerCtx (nextCtx w) (now w + d) c))
                      (withTimeoutCancel (Some (nextCtx w)) v)) ->
            now w + d <= now w2 ->
            Call (length (heap w)) req w2 =
              (Return (JNull, Some ContextErr), slept (slowmotion v) w2)) as Hdead.
  { intros w2 req Hn Hle.
    rewrite (Call_done _ _ _ _ k (TimerCtx (nextCtx w) (now w + d) c) Hn);
      try done.
    unfold isDone. simpl. rewrite (proj2 (Z.leb_le _ _) Hle).
    by rewrite orb_true_r. }
  split; [exact Hdead|]. split.
  - intros Hd req. apply Hdead; [|simpl; lia]. simpl.
    rewrite lookup_app_r by (by rewrite length_insert).
    by rewrite length_insert, Nat.sub_diag.
  - intros w2 Hlt2 Hlive Hfresh. unfold isDone in *. simpl.
    rewrite Hlive, bool_decide_eq_false_2 by done.
    by rewrite (proj2 (Z.leb_gt _ _) Hlt2).
Qed.

End Edges.

Lemma PagesE_edges_witness :
  exists w1,
    PagesE 0%nat
      (connectedWorld {| usable := []; launches := None; rejects := [];
                         freshTarget := "T1"; targets := [("W", "worker")] |}) =
      (Return (Some [], None), w1) /\
    map calledMethod (wire w1) = [Some "Target.getTargets"].
Proof.
  set (W := connectedWorld {| usable := []; launches := None; rejects := [];
                              freshTarget := "T1"; targets := [("W", "worker")] |}).
  destruct (PagesE_edges 0%nat W) as (_ & Hnone & _).
  exists (snd (Call 0%nat getTargets W)). split; [|vm_compute; reflexivity].
  apply (Hnone (JObject "" [("targetInfos",
                             JArray "" [targetInfo ("W", "worker")])]));
    vm_compute; reflexivity.
Defined.

Lemma PageE_stops_at_first_failure_witness :
  exists w1,
    PageE 0%nat "https://example.com"
          (connectedWorld (stubRejecting "Target.createTarget")) =
      (Return (None, Some (RemoteErr "Target.createTarget")), w1).
Proof.
  set (W := connectedWorld (stubRejecting "Target.createTarget")).
  destruct (PageE_stops_at_first_failure 0%nat "https://example.com" W)
    as (Hcreate & _).
  exists (snd (Call 0%nat createTarget W)).
  apply (Hcreate JNull). vm_compute. reflexivity.
Defined.

Lemma Timeout_deadline_witness :
  exists n w',
    Timeout 0%nat (-1) (connectedWorld stub0) = (Return n, w') /\
    fst (Call n getTargets w') = Return (JNull, Some ContextErr).
Proof.
  destruct (Timeout_deadline 0%nat connectedBrowser (CancelCtx 0 Background)
              0%nat (connectedWorld stub0) (-1) eq_refl eq_refl eq_refl)
    as (n & w' & vd & cd & Hrun & _ & _ & _ & Hnow & _).
  exists n, w'. split; [exact Hrun|]. rewrite Hnow; [reflexivity|lia].
Defined.

(** ** Pages and the handle that made them *)
Section PageScope.
Context {E : Type} `{!Remote E}.
Implicit Types (w : World E) (v : Browser) (p : Page).

(** X18.  A page is bound to the handle that made it and to the scope that
    handle had at that moment: every page returned by [PageE] or [PagesE]
    points at [b] and carries the context [b] held when the call was
    made. *)
Theorem pages_inherit_scope b v w :
  heap w !! b = Some v ->
  (forall url p w',
      PageE b url w = (Return (Some p, None), w') ->
      pctx p = ctx v /\ browser p = b) /\
  (forall pages w',
      PagesE b w = (Return (Some pages, None), w') ->
      Forall (fun p => pctx p = ctx v /\ browser p = b) pages).
Proof.
  intros Hb. split.
  - intros url p w' Hrun. unfold PageE, bind in Hrun.
    destruct (Call b createTarget w) as [[[j [e|]]|x] w1] eqn:Hcall;
      try discriminate.
    destruct (Call_ok _ _ _ _ _ Hcall) as (v1 & k & sc & Hb1 & Hk & Hc & Hh1 & _).
    rewrite Hb in Hb1. injection Hb1 as <-. simpl in Hrun.
    destruct (page_returns b (targetIdOf j) w1 v k sc) as (e & w2 & Hp & _);
      [by rewrite Hh1|done|done|].
    rewrite Hp in Hrun. simpl in Hrun. destruct e as [e|]; [discriminate|].
    destruct (NavigateE _ url w2) as [[[e|]|x] w3]; try discriminate.
    injection Hrun as <- _. by rewrite Hc.
  - intros pages w' Hrun. unfold PagesE, bind in Hrun.
    destruct (Call b getTargets w) as [[[j [e|]]|x] w1] eqn:Hcall;
      try discriminate.
    destruct (Call_ok _ _ _ _ _ Hcall) as (v1 & k & sc & Hb1 & Hk & Hc & Hh1 & _).
    rewrite Hb in Hb1. injection Hb1 as <-. simpl in Hrun.
    destruct (pagesLoop_spec b v k sc (Array (Get "targetInfos" j)) [] w1)
      as (r & w2 & Hl & _ & Hr); [by rewrite Hh1|done|done|].
    rewrite Hl in Hrun. injection Hrun as -> _.
    destruct Hr as [(? & ? & ? & ? & ? & [=] & _)|[= ->]].
    simpl. apply Forall_forall. intros p Hin. apply list_elem_of_In in Hin.
    apply in_map_iff in Hin as (t & <- & _). by rewrite Hc.
Qed.

End PageScope.

Lemma pages_inherit_scope_witness :
  exists pages w',
    PagesE 0%nat (connectedWorld stub0) = (Return (Some pages, None), w') /\
    Forall (fun p => pctx p = Some (CancelCtx 0 Background) /\ browser p = 0%nat)
           pages.
Proof.
  destruct (pages_inherit_scope 0%nat connectedBrowser (connectedWorld stub0)
              eq_refl) as [_ H].
  eexists _, _. split; [vm_compute; reflexivity|].
  apply (H _ (snd (PagesE 0%nat (connectedWorld stub0)))).
  vm_compute. reflexivity.
Defined.
